(** * Nuvoton NPCM8xx clock generator (drivers/clk/clk-npcm8xx.c)

    A shallow embedding of the read-only clock driver: the PLL rate
    computation [npcm8xx_clk_pll_recalc_rate], the static tables
    [npcm8xx_plls], [npcm8xx_muxes], [npcm8xx_divs] with their mux
    tables and parent lists, and the sequence of registrations made by
    [npcm8xx_clk_probe].

    C integers are [Z] with their wrap-around written out.  Register
    reads go through a small monad that logs every address read and
    has a trap outcome for the unguarded integer division. *)

From Stdlib Require Import ZArith List String Bool Lia.
Import ListNotations.
Local Open Scope string_scope.
Local Open Scope Z_scope.

(** ** Machine integers *)

(** [unsigned long] is 32 bits wide on ILP32 builds of the kernel and
    64 bits wide on LP64 builds (arm64, the NPCM8xx itself). *)
Inductive long_model : Type := ILP32 | LP64.

Definition BITS_PER_LONG (m : long_model) : Z :=
  match m with ILP32 => 32 | LP64 => 64 end.

(** Conversion to [u8], [u32] ([unsigned int]), [u64] and
    [unsigned long]: reduction modulo the width. *)
Definition u8 (x : Z) : Z := x mod 2 ^ 8.
Definition u32 (x : Z) : Z := x mod 2 ^ 32.
Definition u64 (x : Z) : Z := x mod 2 ^ 64.
Definition ulong (m : long_model) (x : Z) : Z := x mod 2 ^ BITS_PER_LONG m.

(** ** Bit-field macros *)

(** Modelled from the spec: [BIT] of include/linux/bits.h is not among
    the sources; bit [n] alone. *)
Definition BIT (n : Z) : Z := Z.shiftl 1 n.

(** Modelled from the spec: [GENMASK] of include/linux/bits.h is not
    among the sources; the contiguous mask of bits [h] down to [l]
    ("INDV bits 5:0" is [GENMASK 5 0]). *)
Definition GENMASK (h l : Z) : Z := Z.shiftl (Z.ones (h - l + 1)) l.

(** Number of trailing zero bits of a mask. *)
Fixpoint ctz (p : positive) : Z :=
  match p with
  | xO p' => 1 + ctz p'
  | _ => 0
  end.

Definition __bf_shf (mask : Z) : Z :=
  match mask with
  | Zpos p => ctz p
  | _ => 0
  end.

(** Modelled from the spec: [FIELD_GET] of include/linux/bitfield.h is
    not among the sources; the value of the field selected by [mask],
    shifted down to bit 0 (the spec's [extract]). *)
Definition FIELD_GET (mask reg : Z) : Z :=
  Z.shiftr (Z.land reg mask) (__bf_shf mask).

Definition PLLCON_LOKI : Z := BIT 31.
Definition PLLCON_LOKS : Z := BIT 30.
Definition PLLCON_FBDV : Z := GENMASK 27 16.
Definition PLLCON_OTDV2 : Z := GENMASK 15 13.
Definition PLLCON_PWDEN : Z := BIT 12.
Definition PLLCON_OTDV1 : Z := GENMASK 10 8.
Definition PLLCON_INDV : Z := GENMASK 5 0.

(** ** Register reads and the division trap *)

(** Contents of the mapped register window, by address. *)
Definition regfile : Type := Z -> Z.

Inductive Error : Type :=
| ZeroParentRate
| UnknownMuxSelection
| InvalidDivisor
| InvalidConfiguration.

(** How a computation ends: with a value, with one of the resolver's
    errors, or in the trap of an integer division by zero. *)
Inductive outcome (A : Type) : Type :=
| Ret (a : A)
| Fail (e : Error)
| Trap.
Arguments Ret {A} a.
Arguments Fail {A} e.
Arguments Trap {A}.

(** A computation reads the register file and extends the log of the
    addresses it has read (latest first). *)
Definition io (A : Type) : Type := regfile -> list Z -> outcome A * list Z.

Definition ret {A} (a : A) : io A := fun _ log => (Ret a, log).

Definition bind {A B} (c : io A) (k : A -> io B) : io B :=
  fun regs log =>
    match c regs log with
    | (Ret a, log') => k a regs log'
    | (Fail e, log') => (Fail e, log')
    | (Trap, log') => (Trap, log')
    end.

Notation "x <- c ;; k" := (bind c (fun x => k))
  (at level 61, c at next level, right associativity).

(** Modelled from the spec: [readl_relaxed] of the architecture's io.h
    is not among the sources; one 32-bit load from the register
    window ([read32]). *)
Definition readl_relaxed (addr : Z) : io Z :=
  fun regs log => (Ret (u32 (regs addr)), addr :: log).

(** Modelled from the spec: [do_div] of asm/div64.h is not among the
    sources; it divides a [u64] in place by a 32-bit divisor (the
    "single combined division").  A zero divisor is the trap. *)
Definition do_div (n base : Z) : io Z :=
  fun _ log =>
    let b := u32 base in
    if b =? 0 then (Trap, log) else (Ret (u64 n / b), log).

(** The result of a computation started with an empty log, and the
    addresses it read, earliest first. *)
Definition result {A} (c : io A) (regs : regfile) : outcome A :=
  fst (c regs []).
Definition reads {A} (c : io A) (regs : regfile) : list Z :=
  rev (snd (c regs [])).

(** ** The PLL *)

Record npcm8xx_clk_pll : Type := {
  pllcon : Z;
  pll_flags : Z
}.

Definition npcm8xx_clk_pll_recalc_rate (m : long_model)
    (pll : npcm8xx_clk_pll) (parent_rate : Z) : io Z :=
  if parent_rate =? 0 then ret 0
  else
    val <- readl_relaxed (pllcon pll) ;;
    let indv := FIELD_GET PLLCON_INDV val in
    let fbdv := FIELD_GET PLLCON_FBDV val in
    let otdv1 := FIELD_GET PLLCON_OTDV1 val in
    let otdv2 := FIELD_GET PLLCON_OTDV2 val in
    let r := u64 (u64 parent_rate * fbdv) in
    r' <- do_div r (ulong m (ulong m (indv * otdv1) * otdv2)) ;;
    ret (ulong m r').

(** The four divider fields of a control word. *)
Definition INDV (val : Z) : Z := FIELD_GET PLLCON_INDV val.
Definition FBDV (val : Z) : Z := FIELD_GET PLLCON_FBDV val.
Definition OTDV1 (val : Z) : Z := FIELD_GET PLLCON_OTDV1 val.
Definition OTDV2 (val : Z) : Z := FIELD_GET PLLCON_OTDV2 val.

(** A control word with the given divider fields and nothing else set. *)
Definition pllcon_encode (indv fbdv otdv1 otdv2 : Z) : Z :=
  Z.lor (Z.lor indv (Z.shiftl otdv1 8))
        (Z.lor (Z.shiftl otdv2 13) (Z.shiftl fbdv 16)).

(** ** Register offsets and clock names *)

Definition NPCM8XX_REF_CLK : Z := 25000000.

Definition NPCM8XX_CLKSEL : Z := 0x04.
Definition NPCM8XX_CLKDIV1 : Z := 0x08.
Definition NPCM8XX_CLKDIV2 : Z := 0x2C.
Definition NPCM8XX_CLKDIV3 : Z := 0x58.
Definition NPCM8XX_CLKDIV4 : Z := 0x7C.
Definition NPCM8XX_PLLCON0 : Z := 0x0C.
Definition NPCM8XX_PLLCON1 : Z := 0x10.
Definition NPCM8XX_PLLCON2 : Z := 0x54.
Definition NPCM8XX_PLLCONG : Z := 0x60.
Definition NPCM8XX_THRTL_CNT : Z := 0xC0.

Definition NPCM8XX_CLK_S_REFCLK := "refclk".
Definition NPCM8XX_CLK_S_SYSBYPCK := "sysbypck".
Definition NPCM8XX_CLK_S_MCBYPCK := "mcbypck".
Definition NPCM8XX_CLK_S_PLL0 := "pll0".
Definition NPCM8XX_CLK_S_PLL1 := "pll1".
Definition NPCM8XX_CLK_S_PLL1_DIV2 := "pll1_div2".
Definition NPCM8XX_CLK_S_PLL2 := "pll2".
Definition NPCM8XX_CLK_S_PLL_GFX := "pll_gfx".
Definition NPCM8XX_CLK_S_PLL2_DIV2 := "pll2_div2".
Definition NPCM8XX_CLK_S_PIX_MUX := "gfx_pixel".
Definition NPCM8XX_CLK_S_MC_MUX := "mc_phy".
Definition NPCM8XX_CLK_S_CPU_MUX := "cpu".
Definition NPCM8XX_CLK_S_AXI := "axi".
Definition NPCM8XX_CLK_S_AHB := "ahb".
Definition NPCM8XX_CLK_S_CLKOUT_MUX := "clkout_mux".
Definition NPCM8XX_CLK_S_UART_MUX := "uart_mux".
Definition NPCM8XX_CLK_S_SD_MUX := "sd_mux".
Definition NPCM8XX_CLK_S_GFXM_MUX := "gfxm_mux".
Definition NPCM8XX_CLK_S_SU_MUX := "serial_usb_mux".
Definition NPCM8XX_CLK_S_DVC_MUX := "dvc_mux".
Definition NPCM8XX_CLK_S_GFX_MUX := "gfx_mux".
Definition NPCM8XX_CLK_S_ADC_MUX := "adc_mux".
Definition NPCM8XX_CLK_S_SPI0 := "spi0".
Definition NPCM8XX_CLK_S_SPI1 := "spi1".
Definition NPCM8XX_CLK_S_SPI3 := "spi3".
Definition NPCM8XX_CLK_S_SPIX := "spix".
Definition NPCM8XX_CLK_S_APB1 := "apb1".
Definition NPCM8XX_CLK_S_APB2 := "apb2".
Definition NPCM8XX_CLK_S_APB3 := "apb3".
Definition NPCM8XX_CLK_S_APB4 := "apb4".
Definition NPCM8XX_CLK_S_APB5 := "apb5".
Definition NPCM8XX_CLK_S_CLKOUT := "clkout".
Definition NPCM8XX_CLK_S_PRE_ADC := "pre adc".
Definition NPCM8XX_CLK_S_UART := "uart".
Definition NPCM8XX_CLK_S_UART2 := "uart2".
Definition NPCM8XX_CLK_S_MMC := "mmc".
Definition NPCM8XX_CLK_S_SDHC := "sdhc".
Definition NPCM8XX_CLK_S_ADC := "adc".
Definition NPCM8XX_CLK_S_GFX := "gfx0_gfx1_mem".
Definition NPCM8XX_CLK_S_USB_HOST := "usb_host".
Definition NPCM8XX_CLK_S_USB_BRIDGE := "usb_bridge".
Definition NPCM8XX_CLK_S_PCI := "pci".
Definition NPCM8XX_CLK_S_TH := "th".
Definition NPCM8XX_CLK_S_ATB := "atb".
Definition NPCM8XX_CLK_S_PRE_CLK := "pre_clk".
Definition NPCM8XX_CLK_S_RG_MUX := "rg_mux".
Definition NPCM8XX_CLK_S_RCP_MUX := "rcp_mux".
Definition NPCM8XX_CLK_S_RG := "rg".
Definition NPCM8XX_CLK_S_RCP := "rcp".

(** Modelled from the spec: the flag bits of include/linux/clk-provider.h
    are not among the sources; the "power-of-two" flag of a divider, a
    single bit. *)
Definition CLK_DIVIDER_POWER_OF_TWO : Z := BIT 1.

(** Modelled from the spec: the "read-only" flag of a divider, a
    single bit other than the power-of-two one. *)
Definition CLK_DIVIDER_READ_ONLY : Z := BIT 5.

(** Modelled from the spec: a flag of the clock framework that no rate
    depends on. *)
Definition CLK_IS_CRITICAL : Z := BIT 11.

Definition has_flag (flags f : Z) : bool := negb (Z.land flags f =? 0).

(** ** The static tables *)

(** [onecell_idx] is the name of the devicetree binding constant the
    clock is exported under ([None] for [-1]): the binding header is
    not among the sources and no rate depends on the index. *)
Record npcm8xx_clk_mux_data : Type := {
  mux_shift : Z;
  mux_mask : Z;
  mux_table : list Z;
  mux_name : string;
  mux_parent_names : list string;
  mux_num_parents : Z;
  mux_flags : Z;
  mux_onecell_idx : option string
}.

Record npcm8xx_clk_div_data : Type := {
  div_reg : Z;
  div_shift : Z;
  div_width : Z;
  div_name : string;
  div_parent_name : string;
  clk_divider_flags : Z;
  div_flags : Z;
  div_onecell_idx : option string
}.

Record npcm8xx_clk_pll_data : Type := {
  pll_reg : Z;
  pll_name : string;
  pll_parent_name : string;
  pll_data_flags : Z;
  pll_onecell_idx : option string
}.

Definition ARRAY_SIZE {A} (a : list A) : Z := Z.of_nat (List.length a).

Definition pll_mux_table : list Z := [0; 1; 2; 3].
Definition pll_mux_parents : list string :=
  [NPCM8XX_CLK_S_PLL0; NPCM8XX_CLK_S_PLL1; NPCM8XX_CLK_S_REFCLK;
   NPCM8XX_CLK_S_PLL2_DIV2].

Definition cpuck_mux_table : list Z := [0; 1; 2; 3; 7].
Definition cpuck_mux_parents : list string :=
  [NPCM8XX_CLK_S_PLL0; NPCM8XX_CLK_S_PLL1; NPCM8XX_CLK_S_REFCLK;
   NPCM8XX_CLK_S_SYSBYPCK; NPCM8XX_CLK_S_PLL2].

Definition pixcksel_mux_table : list Z := [0; 2].
Definition pixcksel_mux_parents : list string :=
  [NPCM8XX_CLK_S_PLL_GFX; NPCM8XX_CLK_S_REFCLK].

Definition sucksel_mux_table : list Z := [2; 3].
Definition sucksel_mux_parents : list string :=
  [NPCM8XX_CLK_S_REFCLK; NPCM8XX_CLK_S_PLL2_DIV2].

Definition mccksel_mux_table : list Z := [0; 2; 3].
Definition mccksel_mux_parents : list string :=
  [NPCM8XX_CLK_S_PLL1_DIV2; NPCM8XX_CLK_S_REFCLK; NPCM8XX_CLK_S_MCBYPCK].

Definition clkoutsel_mux_table : list Z := [0; 1; 2; 3; 4].
Definition clkoutsel_mux_parents : list string :=
  [NPCM8XX_CLK_S_PLL0; NPCM8XX_CLK_S_PLL1; NPCM8XX_CLK_S_REFCLK;
   NPCM8XX_CLK_S_PLL_GFX; NPCM8XX_CLK_S_PLL2_DIV2].

Definition gfxmsel_mux_table : list Z := [2; 3].
Definition gfxmsel_mux_parents : list string :=
  [NPCM8XX_CLK_S_REFCLK; NPCM8XX_CLK_S_PLL2_DIV2].

Definition dvcssel_mux_table : list Z := [2; 3].
Definition dvcssel_mux_parents : list string :=
  [NPCM8XX_CLK_S_REFCLK; NPCM8XX_CLK_S_PLL2].

Definition mk_pll := Build_npcm8xx_clk_pll_data.
Definition mk_mux := Build_npcm8xx_clk_mux_data.
Definition mk_div := Build_npcm8xx_clk_div_data.

Definition npcm8xx_plls : list npcm8xx_clk_pll_data :=
  [ mk_pll NPCM8XX_PLLCON0 NPCM8XX_CLK_S_PLL0 NPCM8XX_CLK_S_REFCLK 0 None;
    mk_pll NPCM8XX_PLLCON1 NPCM8XX_CLK_S_PLL1 NPCM8XX_CLK_S_REFCLK 0 None;
    mk_pll NPCM8XX_PLLCON2 NPCM8XX_CLK_S_PLL2 NPCM8XX_CLK_S_REFCLK 0 None;
    mk_pll NPCM8XX_PLLCONG NPCM8XX_CLK_S_PLL_GFX NPCM8XX_CLK_S_REFCLK 0 None ].

Definition npcm8xx_muxes : list npcm8xx_clk_mux_data :=
  [ mk_mux 0 (u8 (GENMASK 1 0)) cpuck_mux_table NPCM8XX_CLK_S_CPU_MUX
      cpuck_mux_parents (ARRAY_SIZE cpuck_mux_parents) CLK_IS_CRITICAL
      (Some "NPCM8XX_CLK_CPU");
    mk_mux 4 (u8 (GENMASK 1 0)) pixcksel_mux_table NPCM8XX_CLK_S_PIX_MUX
      pixcksel_mux_parents (ARRAY_SIZE pixcksel_mux_parents) 0
      (Some "NPCM8XX_CLK_GFX_PIXEL");
    mk_mux 6 (u8 (GENMASK 1 0)) pll_mux_table NPCM8XX_CLK_S_SD_MUX
      pll_mux_parents (ARRAY_SIZE pll_mux_parents) 0 None;
    mk_mux 8 (u8 (GENMASK 1 0)) pll_mux_table NPCM8XX_CLK_S_UART_MUX
      pll_mux_parents (ARRAY_SIZE pll_mux_parents) 0 None;
    mk_mux 10 (u8 (GENMASK 1 0)) sucksel_mux_table NPCM8XX_CLK_S_SU_MUX
      sucksel_mux_parents (ARRAY_SIZE sucksel_mux_parents) 0 None;
    mk_mux 12 (u8 (GENMASK 1 0)) mccksel_mux_table NPCM8XX_CLK_S_MC_MUX
      mccksel_mux_parents (ARRAY_SIZE mccksel_mux_parents) 0 None;
    mk_mux 14 (u8 (GENMASK 1 0)) pll_mux_table NPCM8XX_CLK_S_ADC_MUX
      pll_mux_parents (ARRAY_SIZE pll_mux_parents) 0 None;
    mk_mux 16 (u8 (GENMASK 1 0)) pll_mux_table NPCM8XX_CLK_S_GFX_MUX
      pll_mux_parents (ARRAY_SIZE pll_mux_parents) 0 None;
    mk_mux 18 (u8 (GENMASK 2 0)) clkoutsel_mux_table NPCM8XX_CLK_S_CLKOUT_MUX
      clkoutsel_mux_parents (ARRAY_SIZE clkoutsel_mux_parents) 0 None;
    mk_mux 21 (u8 (GENMASK 1 0)) gfxmsel_mux_table NPCM8XX_CLK_S_GFXM_MUX
      gfxmsel_mux_parents (ARRAY_SIZE gfxmsel_mux_parents) 0 None;
    mk_mux 23 (u8 (GENMASK 1 0)) dvcssel_mux_table NPCM8XX_CLK_S_DVC_MUX
      dvcssel_mux_parents (ARRAY_SIZE dvcssel_mux_parents) 0 None;
    mk_mux 25 (u8 (GENMASK 1 0)) pll_mux_table NPCM8XX_CLK_S_RG_MUX
      pll_mux_parents (ARRAY_SIZE pll_mux_parents) 0 None;
    mk_mux 27 (u8 (GENMASK 1 0)) pll_mux_table NPCM8XX_CLK_S_RCP_MUX
      pll_mux_parents (ARRAY_SIZE pll_mux_parents) 0 None ].

(** configurable dividers *)
Definition npcm8xx_divs : list npcm8xx_clk_div_data :=
  [ mk_div NPCM8XX_CLKDIV1 28 3 NPCM8XX_CLK_S_ADC NPCM8XX_CLK_S_PRE_ADC
      (Z.lor CLK_DIVIDER_READ_ONLY CLK_DIVIDER_POWER_OF_TWO) 0
      (Some "NPCM8XX_CLK_ADC");
    mk_div NPCM8XX_CLKDIV1 26 2 NPCM8XX_CLK_S_AHB NPCM8XX_CLK_S_PRE_CLK
      CLK_DIVIDER_READ_ONLY CLK_IS_CRITICAL (Some "NPCM8XX_CLK_AHB");
    mk_div NPCM8XX_CLKDIV1 21 5 NPCM8XX_CLK_S_PRE_ADC NPCM8XX_CLK_S_ADC_MUX
      CLK_DIVIDER_READ_ONLY 0 (Some "NPCM8XX_CLK_PRE_ADC");
    mk_div NPCM8XX_CLKDIV1 16 5 NPCM8XX_CLK_S_UART NPCM8XX_CLK_S_UART_MUX
      CLK_DIVIDER_READ_ONLY 0 (Some "NPCM8XX_CLK_UART");
    mk_div NPCM8XX_CLKDIV1 11 5 NPCM8XX_CLK_S_MMC NPCM8XX_CLK_S_SD_MUX
      CLK_DIVIDER_READ_ONLY 0 (Some "NPCM8XX_CLK_MMC");
    mk_div NPCM8XX_CLKDIV1 6 5 NPCM8XX_CLK_S_SPI3 NPCM8XX_CLK_S_AHB
      0 0 (Some "NPCM8XX_CLK_SPI3");
    mk_div NPCM8XX_CLKDIV1 2 4 NPCM8XX_CLK_S_PCI NPCM8XX_CLK_S_GFX_MUX
      CLK_DIVIDER_READ_ONLY 0 (Some "NPCM8XX_CLK_PCI");

    mk_div NPCM8XX_CLKDIV2 30 2 NPCM8XX_CLK_S_APB4 NPCM8XX_CLK_S_AHB
      (Z.lor CLK_DIVIDER_READ_ONLY CLK_DIVIDER_POWER_OF_TWO) 0
      (Some "NPCM8XX_CLK_APB4");
    mk_div NPCM8XX_CLKDIV2 28 2 NPCM8XX_CLK_S_APB3 NPCM8XX_CLK_S_AHB
      (Z.lor CLK_DIVIDER_READ_ONLY CLK_DIVIDER_POWER_OF_TWO) 0
      (Some "NPCM8XX_CLK_APB3");
    mk_div NPCM8XX_CLKDIV2 26 2 NPCM8XX_CLK_S_APB2 NPCM8XX_CLK_S_AHB
      (Z.lor CLK_DIVIDER_READ_ONLY CLK_DIVIDER_POWER_OF_TWO) 0
      (Some "NPCM8XX_CLK_APB2");
    mk_div NPCM8XX_CLKDIV2 24 2 NPCM8XX_CLK_S_APB1 NPCM8XX_CLK_S_AHB
      (Z.lor CLK_DIVIDER_READ_ONLY CLK_DIVIDER_POWER_OF_TWO) 0
      (Some "NPCM8XX_CLK_APB1");
    mk_div NPCM8XX_CLKDIV2 22 2 NPCM8XX_CLK_S_APB5 NPCM8XX_CLK_S_AHB
      (Z.lor CLK_DIVIDER_READ_ONLY CLK_DIVIDER_POWER_OF_TWO) 0
      (Some "NPCM8XX_CLK_APB5");
    mk_div NPCM8XX_CLKDIV2 16 5 NPCM8XX_CLK_S_CLKOUT NPCM8XX_CLK_S_CLKOUT_MUX
      CLK_DIVIDER_READ_ONLY 0 (Some "NPCM8XX_CLK_CLKOUT");
    mk_div NPCM8XX_CLKDIV2 13 3 NPCM8XX_CLK_S_GFX NPCM8XX_CLK_S_GFX_MUX
      CLK_DIVIDER_READ_ONLY 0 (Some "NPCM8XX_CLK_GFX");
    mk_div NPCM8XX_CLKDIV2 8 5 NPCM8XX_CLK_S_USB_BRIDGE NPCM8XX_CLK_S_SU_MUX
      CLK_DIVIDER_READ_ONLY 0 (Some "NPCM8XX_CLK_SU");
    mk_div NPCM8XX_CLKDIV2 4 4 NPCM8XX_CLK_S_USB_HOST NPCM8XX_CLK_S_SU_MUX
      CLK_DIVIDER_READ_ONLY 0 (Some "NPCM8XX_CLK_SU48");
    mk_div NPCM8XX_CLKDIV2 0 4 NPCM8XX_CLK_S_SDHC NPCM8XX_CLK_S_SD_MUX
      CLK_DIVIDER_READ_ONLY 0 (Some "NPCM8XX_CLK_SDHC");

    mk_div NPCM8XX_CLKDIV3 16 8 NPCM8XX_CLK_S_SPI1 NPCM8XX_CLK_S_AHB
      CLK_DIVIDER_READ_ONLY 0 (Some "NPCM8XX_CLK_SPI1");
    mk_div NPCM8XX_CLKDIV3 11 5 NPCM8XX_CLK_S_UART2 NPCM8XX_CLK_S_UART_MUX
      CLK_DIVIDER_READ_ONLY 0 (Some "NPCM8XX_CLK_UART2");
    mk_div NPCM8XX_CLKDIV3 6 5 NPCM8XX_CLK_S_SPI0 NPCM8XX_CLK_S_AHB
      CLK_DIVIDER_READ_ONLY 0 (Some "NPCM8XX_CLK_SPI0");
    mk_div NPCM8XX_CLKDIV3 1 5 NPCM8XX_CLK_S_SPIX NPCM8XX_CLK_S_AHB
      CLK_DIVIDER_READ_ONLY 0 (Some "NPCM8XX_CLK_SPIX");

    mk_div NPCM8XX_CLKDIV4 28 4 NPCM8XX_CLK_S_RG NPCM8XX_CLK_S_RG_MUX
      CLK_DIVIDER_READ_ONLY 0 (Some "NPCM8XX_CLK_RG");
    mk_div NPCM8XX_CLKDIV4 12 4 NPCM8XX_CLK_S_RCP NPCM8XX_CLK_S_RCP_MUX
      CLK_DIVIDER_READ_ONLY 0 (Some "NPCM8XX_CLK_RCP");
    mk_div NPCM8XX_THRTL_CNT 0 2 NPCM8XX_CLK_S_TH NPCM8XX_CLK_S_CPU_MUX
      (Z.lor CLK_DIVIDER_READ_ONLY CLK_DIVIDER_POWER_OF_TWO) 0
      (Some "NPCM8XX_CLK_TH") ].

(** ** Registered clocks *)

(** The kinds of clock the probe registers, with what each
    registration call is given. *)
Inductive clk_kind : Type :=
| FixedRate (fixed_rate : Z)
| Pll (pll : npcm8xx_clk_pll)
| FixedFactorDivider (mult div : Z)
| Divider (reg shift width divider_flags : Z)
| Mux (reg shift mask : Z) (table : list Z).

Record clk_hw : Type := {
  clk_name : string;
  clk_parent_names : list string;
  clk_flags : Z;
  clk_kind_of : clk_kind
}.

(** The parent of a single-parent registration; [NULL] is [None]. *)
Definition parent_list (parent_name : option string) : list string :=
  match parent_name with
  | Some p => [p]
  | None => []
  end.

Definition clk_hw_register_fixed_rate (name : string)
    (parent_name : option string) (flags fixed_rate : Z) : clk_hw :=
  {| clk_name := name; clk_parent_names := parent_list parent_name;
     clk_flags := flags; clk_kind_of := FixedRate fixed_rate |}.

(** The [pll] structure is zero-allocated: only [pllcon] is set. *)
Definition npcm8xx_clk_register_pll (pllcon : Z) (name parent_name : string)
    (flags : Z) : clk_hw :=
  let pll := {| pllcon := pllcon; pll_flags := 0 |} in
  {| clk_name := name; clk_parent_names := [parent_name];
     clk_flags := flags; clk_kind_of := Pll pll |}.

Definition devm_clk_hw_register_fixed_factor (name parent_name : string)
    (flags mult div : Z) : clk_hw :=
  {| clk_name := name; clk_parent_names := [parent_name];
     clk_flags := flags; clk_kind_of := FixedFactorDivider mult div |}.

Definition devm_clk_hw_register_divider (name parent_name : string)
    (flags reg shift width clk_divider_flags : Z) : clk_hw :=
  {| clk_name := name; clk_parent_names := [parent_name];
     clk_flags := flags;
     clk_kind_of := Divider reg shift width clk_divider_flags |}.

Definition clk_hw_register_mux_table (name : string)
    (parent_names : list string) (num_parents flags reg shift mask : Z)
    (table : list Z) : clk_hw :=
  {| clk_name := name;
     clk_parent_names := firstn (Z.to_nat num_parents) parent_names;
     clk_flags := flags; clk_kind_of := Mux reg shift mask table |}.

(** The clocks [npcm8xx_clk_probe] registers, in registration order,
    when no registration fails: the reference clock, the PLLs, the
    five fixed dividers, the dividers of [npcm8xx_divs] and the muxes
    of [npcm8xx_muxes]. *)
Definition npcm8xx_clk_probe (clk_base : Z) : list clk_hw :=
  [ clk_hw_register_fixed_rate "refclk" None 0 NPCM8XX_REF_CLK ]
  ++ map (fun pll_data =>
            npcm8xx_clk_register_pll (clk_base + pll_reg pll_data)
              (pll_name pll_data) (pll_parent_name pll_data)
              (pll_data_flags pll_data))
         npcm8xx_plls
  ++ [ devm_clk_hw_register_fixed_factor NPCM8XX_CLK_S_PLL1_DIV2
         NPCM8XX_CLK_S_PLL1 0 1 2;
       devm_clk_hw_register_fixed_factor NPCM8XX_CLK_S_PLL2_DIV2
         NPCM8XX_CLK_S_PLL2 0 1 2;
       devm_clk_hw_register_fixed_factor NPCM8XX_CLK_S_PRE_CLK
         NPCM8XX_CLK_S_CPU_MUX 0 1 2;
       devm_clk_hw_register_fixed_factor NPCM8XX_CLK_S_AXI
         NPCM8XX_CLK_S_TH 0 1 2;
       devm_clk_hw_register_fixed_factor NPCM8XX_CLK_S_ATB
         NPCM8XX_CLK_S_AXI 0 1 2 ]
  ++ map (fun div_data =>
            devm_clk_hw_register_divider (div_name div_data)
              (div_parent_name div_data) (div_flags div_data)
              (clk_base + div_reg div_data) (div_shift div_data)
              (div_width div_data) (clk_divider_flags div_data))
         npcm8xx_divs
  ++ map (fun mux_data =>
            clk_hw_register_mux_table (mux_name mux_data)
              (mux_parent_names mux_data) (mux_num_parents mux_data)
              (mux_flags mux_data) (clk_base + NPCM8XX_CLKSEL)
              (mux_shift mux_data) (mux_mask mux_data)
              (mux_table mux_data))
         npcm8xx_muxes.

(** Whether a name is that of a registered clock. *)
Definition registered (clks : list clk_hw) (name : string) : bool :=
  existsb (fun hw => String.eqb (clk_name hw) name) clks.

(** Every parent reference names a clock of the same table. *)
Definition parents_registered (clks : list clk_hw) : bool :=
  forallb (fun hw => forallb (registered clks) (clk_parent_names hw)) clks.

Definition is_fixed_rate (hw : clk_hw) : bool :=
  match clk_kind_of hw with FixedRate _ => true | _ => false end.

(** ** Rate resolution *)

Definition obind {A B} (o : outcome A) (k : A -> outcome B) : outcome B :=
  match o with
  | Ret a => k a
  | Fail e => Fail e
  | Trap => Trap
  end.

Definition clk_lookup (clks : list clk_hw) (name : string) : option clk_hw :=
  find (fun hw => String.eqb (clk_name hw) name) clks.

(** Modelled from the spec: the Register Accessor's [read32]; the
    32-bit word at an address of the register window. *)
Definition read32 (regs : regfile) (addr : Z) : Z := u32 (regs addr).

(** Modelled from the spec: the bit-field codec (4.1); the
    [width]-bit unsigned value at bit position [shift]. *)
Definition extract (word shift width : Z) : Z :=
  Z.land (Z.shiftr word shift) (Z.ones width).

(** Modelled from the spec: the selector field of a mux (3, Mux:
    "bit-field shift, bit-field width/mask"); the bits at [shift]
    under [mask]. *)
Definition extract_mask (word shift mask : Z) : Z :=
  Z.land (Z.shiftr word shift) mask.

(** Modelled from the spec: the lookup of a raw selector value in a
    mux's table (4.2, Mux); the index of the first entry equal to
    [raw], if there is one. *)
Fixpoint mux_index (raw : Z) (table : list Z) : option nat :=
  match table with
  | [] => None
  | v :: rest =>
      if v =? raw then Some O else option_map S (mux_index raw rest)
  end.

(** Modelled from the spec: the divisor of a Divider (4.2);
    [2^field] under the power-of-two flag, [field + 1] otherwise. *)
Definition divider_divisor (flags field : Z) : Z :=
  if has_flag flags CLK_DIVIDER_POWER_OF_TWO then 2 ^ field else field + 1.

(** Modelled from the spec: the per-kind formulas of the Rate
    Resolver (4.2), given the resolution [rec] of parents.  The clock
    types of the framework (drivers/clk/clk-divider.c, clk-mux.c,
    clk-fixed-factor.c, clk-fixed-rate.c) are not among the sources.
    The PLL case runs the driver's own [npcm8xx_clk_pll_recalc_rate].
    A wrong number of parents is [InvalidConfiguration]. *)
Definition resolve_node (m : long_model) (regs : regfile)
    (rec : string -> outcome Z) (hw : clk_hw) : outcome Z :=
  match clk_kind_of hw, clk_parent_names hw with
  | FixedRate fixed_rate, _ => Ret fixed_rate
  | Pll pll, [parent] =>
      obind (rec parent) (fun parent_rate =>
      result (npcm8xx_clk_pll_recalc_rate m pll parent_rate) regs)
  | FixedFactorDivider mult div, [parent] =>
      obind (rec parent) (fun parent_rate =>
      if parent_rate =? 0 then Fail ZeroParentRate
      else if div =? 0 then Fail InvalidDivisor
      else Ret (u64 (parent_rate * mult) / div))
  | Divider reg shift width flags, [parent] =>
      obind (rec parent) (fun parent_rate =>
      let field := extract (read32 regs reg) shift width in
      let divisor := divider_divisor flags field in
      if divisor =? 0 then Fail InvalidDivisor
      else Ret (parent_rate / divisor))
  | Mux reg shift mask table, parents =>
      let raw := extract_mask (read32 regs reg) shift mask in
      match mux_index raw table with
      | None => Fail UnknownMuxSelection
      | Some index =>
          match nth_error parents index with
          | Some parent => rec parent
          | None => Fail InvalidConfiguration
          end
      end
  | _, _ => Fail InvalidConfiguration
  end.

(** Modelled from the spec: the recursive walk of the Rate Resolver
    (4.2) from a clock to its current parent (drivers/clk/clk.c is not
    among the sources).  [fuel] caps the recursion depth; a name that
    is not registered and exhausted fuel are [InvalidConfiguration]. *)
Fixpoint resolve_fuel (m : long_model) (clks : list clk_hw) (regs : regfile)
    (fuel : nat) (name : string) : outcome Z :=
  match fuel with
  | O => Fail InvalidConfiguration
  | S fuel' =>
      match clk_lookup clks name with
      | None => Fail InvalidConfiguration
      | Some hw => resolve_node m regs (resolve_fuel m clks regs fuel') hw
      end
  end.

(** Resolution over the probe's table; no chain of parents is longer
    than the table. *)
Definition resolve (m : long_model) (clk_base : Z) (regs : regfile)
    (name : string) : outcome Z :=
  let clks := npcm8xx_clk_probe clk_base in
  resolve_fuel m clks regs (List.length clks) name.

(** The depth of a clock below the sources (0 for names that are not
    registered). *)
Fixpoint depth (clks : list clk_hw) (fuel : nat) (name : string) : nat :=
  match fuel with
  | O => O
  | S fuel' =>
      match clk_lookup clks name with
      | None => O
      | Some hw =>
          S (fold_right Nat.max O
               (map (depth clks fuel') (clk_parent_names hw)))
      end
  end.

Definition rank (clks : list clk_hw) (name : string) : nat :=
  depth clks (List.length clks) name.

(** Every parent lies strictly closer to the sources than its child. *)
Definition ranked (clks : list clk_hw) : bool :=
  forallb (fun hw =>
             forallb (fun p => Nat.ltb (rank clks p) (rank clks (clk_name hw)))
                     (clk_parent_names hw))
          clks.

(** No clock is deeper than the table is long. *)
Definition rank_bounded (clks : list clk_hw) : bool :=
  forallb (fun hw => Nat.ltb (rank clks (clk_name hw)) (List.length clks))
          clks.

(** What rate resolution relies on in a registered clock: a fixed
    rate that fits 32 bits; one parent for a PLL, a fixed factor and a
    divider; a fixed factor that does not multiply; a divider field
    inside the register; a mux with as many parents as table
    entries. *)
Definition node_sane (hw : clk_hw) : bool :=
  let parents := List.length (clk_parent_names hw) in
  match clk_kind_of hw with
  | FixedRate fixed_rate => (0 <=? fixed_rate) && (fixed_rate <? 2 ^ 32)
  | Pll _ => Nat.eqb parents 1
  | FixedFactorDivider mult div =>
      Nat.eqb parents 1 && (mult =? 1) && (0 <? div)
  | Divider _ shift width _ =>
      Nat.eqb parents 1 && (0 <=? shift) && (0 <=? width)
      && (shift + width <=? 32)
  | Mux _ shift _ table =>
      (0 <=? shift) && Nat.eqb (List.length table) parents
  end.

(** A parent reference is accounted for when it names a registered
    clock or is one of the two bypass clocks, each under its mux. *)
Definition parent_accounted (clks : list clk_hw) (hw : clk_hw)
    (parent : string) : bool :=
  registered clks parent
  || (String.eqb (clk_name hw) NPCM8XX_CLK_S_CPU_MUX
      && String.eqb parent NPCM8XX_CLK_S_SYSBYPCK)
  || (String.eqb (clk_name hw) NPCM8XX_CLK_S_MC_MUX
      && String.eqb parent NPCM8XX_CLK_S_MCBYPCK).

(** Only fixed-rate clocks are without a parent. *)
Definition sources_are_fixed_rate (hw : clk_hw) : bool :=
  Bool.eqb (match clk_parent_names hw with [] => true | _ => false end)
           (is_fixed_rate hw).

(** ** Sample inputs *)

(** A control word with the power-down and both lock-status bits set. *)
Definition pllcon_status_set (val : Z) : Z :=
  Z.lor val (Z.lor PLLCON_PWDEN (Z.lor PLLCON_LOKS PLLCON_LOKI)).

(** A register window that reads [word] at every address. *)
Definition regs_const (word : Z) : regfile := fun _ => word.

(** The PLL structure of [pll0] for a register window mapped at 0. *)
Definition pll0_hw : npcm8xx_clk_pll :=
  {| pllcon := 0 + NPCM8XX_PLLCON0; pll_flags := 0 |}.

(** A register window given by its nonzero words. *)
Fixpoint regs_of (words : list (Z * Z)) : regfile :=
  fun addr =>
    match words with
    | [] => 0
    | (a, w) :: rest => if a =? addr then w else regs_of rest addr
    end.

(** PLL0 at 800 MHz, the graphics mux on PLL0 and a PCI divider field
    of 3, for a register window mapped at 0. *)
Definition pci_regs : regfile :=
  regs_of [(NPCM8XX_PLLCON0, pllcon_encode 1 64 2 1);
           (NPCM8XX_CLKSEL, 0);
           (NPCM8XX_CLKDIV1, Z.shiftl 3 2)].

(** The pixel mux selector at 1, a value its table does not hold. *)
Definition pix_regs : regfile := regs_of [(NPCM8XX_CLKSEL, Z.shiftl 1 4)].

(** PLL1 with a feedback divider of 0. *)
Definition dead_pll1_regs : regfile :=
  regs_of [(NPCM8XX_PLLCON1, pllcon_encode 1 0 1 1)].

Definition pci_div : npcm8xx_clk_div_data :=
  mk_div NPCM8XX_CLKDIV1 2 4 NPCM8XX_CLK_S_PCI NPCM8XX_CLK_S_GFX_MUX
    CLK_DIVIDER_READ_ONLY 0 (Some "NPCM8XX_CLK_PCI").

Definition spi3_div : npcm8xx_clk_div_data :=
  mk_div NPCM8XX_CLKDIV1 6 5 NPCM8XX_CLK_S_SPI3 NPCM8XX_CLK_S_AHB
    0 0 (Some "NPCM8XX_CLK_SPI3").

Definition pix_mux : npcm8xx_clk_mux_data :=
  mk_mux 4 (u8 (GENMASK 1 0)) pixcksel_mux_table NPCM8XX_CLK_S_PIX_MUX
    pixcksel_mux_parents (ARRAY_SIZE pixcksel_mux_parents) 0
    (Some "NPCM8XX_CLK_GFX_PIXEL").

Definition cpu_mux : npcm8xx_clk_mux_data :=
  mk_mux 0 (u8 (GENMASK 1 0)) cpuck_mux_table NPCM8XX_CLK_S_CPU_MUX
    cpuck_mux_parents (ARRAY_SIZE cpuck_mux_parents) CLK_IS_CRITICAL
    (Some "NPCM8XX_CLK_CPU").

Definition pll1_div2_hw : clk_hw :=
  devm_clk_hw_register_fixed_factor NPCM8XX_CLK_S_PLL1_DIV2
    NPCM8XX_CLK_S_PLL1 0 1 2.

(** The check behind the parent invariant, per clock. *)
Definition parents_ok (clks : list clk_hw) (hw : clk_hw) : bool :=
  sources_are_fixed_rate hw
  && forallb (parent_accounted clks hw) (clk_parent_names hw).

(** ** The probe with its failure paths *)

(** Modelled from the spec: the errno values of include/uapi/asm-generic
    and include/linux/errno.h are not among the sources; two distinct
    error numbers inside the error-pointer range. *)
Definition ENOMEM : Z := 12.
Definition EPROBE_DEFER : Z := 517.
Definition MAX_ERRNO : Z := 4095.

(** What a [struct clk_hw *] holds: a clock, or an integer made into a
    pointer by [ERR_PTR]. *)
Inductive clk_ptr : Type :=
| Hw (hw : clk_hw)
| ERR_PTR (error : Z).

(** Modelled from the spec: [IS_ERR] of include/linux/err.h is not
    among the sources; the pointer lies in the last [MAX_ERRNO]
    addresses. *)
Definition IS_ERR (p : clk_ptr) : bool :=
  match p with
  | Hw _ => false
  | ERR_PTR error => (- MAX_ERRNO <=? error) && (error <? 0)
  end.

(** [PTR_ERR] is only taken of pointers made by [ERR_PTR]. *)
Definition PTR_ERR (p : clk_ptr) : Z :=
  match p with
  | Hw _ => 0
  | ERR_PTR error => error
  end.

(** What the probe gets from the kernel around it: whether the
    allocations succeed, the return values of the calls it makes, and
    the devicetree binding header, which is not among the sources
    ([binding] gives the value of a binding constant by its name;
    every constant used is an index into [hws]). *)
Record platform : Type := {
  binding : string -> Z;
  devm_kzalloc_clk_data : bool;
  of_address_to_resource : Z;
  ioremap : option Z;
  devm_kzalloc_pll : string -> bool;
  clk_hw_register : string -> Z;
  devm_of_clk_add_hw_provider : Z
}.

(** The state the probe works on: the [hws] array of the onecell
    data, the clocks registered with the framework, in order, and the
    pointers handed to [clk_hw_unregister] and
    [clk_hw_unregister_mux], in order. *)
Record probe_state : Type := {
  hws : Z -> clk_ptr;
  registered_clks : list clk_hw;
  unregistered : list clk_ptr
}.

(** Where the probe leaves its straight path. *)
Inductive probe_exit : Type :=
| exit_return (err : Z)
| goto_unregister_refclk (hw : clk_ptr)
| goto_err_mux_clk (hw : clk_ptr) (i : nat).

Definition probe_m (A : Type) : Type :=
  probe_state -> (A + probe_exit) * probe_state.

Definition pret {A} (a : A) : probe_m A := fun st => (inl a, st).

Definition pexit {A} (e : probe_exit) : probe_m A := fun st => (inr e, st).

Definition pbind {A B} (c : probe_m A) (k : A -> probe_m B) : probe_m B :=
  fun st =>
    match c st with
    | (inl a, st') => k a st'
    | (inr e, st') => (inr e, st')
    end.

Notation "'do' x <- c ; k" := (pbind c (fun x => k))
  (at level 61, x name, c at next level, right associativity).

(** [hws[idx] = p]. *)
Definition store_hws (idx : Z) (p : clk_ptr) : probe_m unit :=
  fun st =>
    (inl tt,
     {| hws := fun i => if i =? idx then p else hws st i;
        registered_clks := registered_clks st;
        unregistered := unregistered st |}).

(** The state with one more clock registered. *)
Definition add_registered (hw : clk_hw) (st : probe_state) : probe_state :=
  {| hws := hws st;
     registered_clks := registered_clks st ++ [hw];
     unregistered := unregistered st |}.

(** A registration call of the clock framework: the clock is
    registered and returned, or an error pointer comes back. *)
Definition framework_register (env : platform) (hw : clk_hw)
    : probe_m clk_ptr :=
  fun st =>
    let ret := clk_hw_register env (clk_name hw) in
    if ret =? 0 then (inl (Hw hw), add_registered hw st)
    else (inl (ERR_PTR ret), st).

(** [clk_hw_unregister(p)] and [clk_hw_unregister_mux(p)]. *)
Definition unregister (p : clk_ptr) (st : probe_state) : probe_state :=
  {| hws := hws st;
     registered_clks := registered_clks st;
     unregistered := unregistered st ++ [p] |}.

(** [npcm8xx_clk_register_pll] with its two failures: the allocation
    and [devm_clk_hw_register]. *)
Definition npcm8xx_clk_register_pll_m (env : platform) (pllcon : Z)
    (name parent_name : string) (flags : Z) : probe_m clk_ptr :=
  if negb (devm_kzalloc_pll env name) then pret (ERR_PTR (- ENOMEM))
  else
    let hw := npcm8xx_clk_register_pll pllcon name parent_name flags in
    fun st =>
      let ret := clk_hw_register env name in
      if negb (ret =? 0) then (inl (ERR_PTR ret), st)
      else (inl (Hw hw), add_registered hw st).

(** The value of an [onecell_idx] field. *)
Definition onecell_value (env : platform) (idx : option string) : Z :=
  match idx with
  | Some c => binding env c
  | None => -1
  end.

(** [if (onecell_idx >= 0) hws[onecell_idx] = hw]. *)
Definition store_onecell (env : platform) (idx : option string)
    (hw : clk_ptr) : probe_m unit :=
  fun st =>
    (inl tt,
     {| hws := if 0 <=? onecell_value env idx
               then fun i => if i =? onecell_value env idx then hw
                             else hws st i
               else hws st;
        registered_clks := registered_clks st;
        unregistered := unregistered st |}).

(** The loop over [npcm8xx_plls], from some row on. *)
Fixpoint register_plls (env : platform) (clk_base : Z)
    (plls : list npcm8xx_clk_pll_data) : probe_m unit :=
  match plls with
  | [] => pret tt
  | pll_data :: rest =>
      do hw <- npcm8xx_clk_register_pll_m env (clk_base + pll_reg pll_data)
                 (pll_name pll_data) (pll_parent_name pll_data)
                 (pll_data_flags pll_data);
      if IS_ERR hw then pexit (goto_unregister_refclk hw)
      else
        do _ <- store_onecell env (pll_onecell_idx pll_data) hw;
        register_plls env clk_base rest
  end.

(** One of the five fixed dividers. *)
Definition register_fixed_factor (env : platform)
    (name parent_name : string) (flags mult div : Z) : probe_m unit :=
  do hw <- framework_register env
             (devm_clk_hw_register_fixed_factor name parent_name flags
                mult div);
  if IS_ERR hw then pexit (goto_unregister_refclk hw) else pret tt.

(** The loop over [npcm8xx_divs], from some row on. *)
Fixpoint register_divs (env : platform) (clk_base : Z)
    (divs : list npcm8xx_clk_div_data) : probe_m unit :=
  match divs with
  | [] => pret tt
  | div_data :: rest =>
      do hw <- framework_register env
                 (devm_clk_hw_register_divider (div_name div_data)
                    (div_parent_name div_data) (div_flags div_data)
                    (clk_base + div_reg div_data) (div_shift div_data)
                    (div_width div_data) (clk_divider_flags div_data));
      if IS_ERR hw then pexit (goto_unregister_refclk hw)
      else
        do _ <- store_onecell env (div_onecell_idx div_data) hw;
        register_divs env clk_base rest
  end.

(** The loop over [npcm8xx_muxes], from row [i] on; it ends with the
    final value of [i]. *)
Fixpoint register_muxes (env : platform) (clk_base : Z)
    (muxes : list npcm8xx_clk_mux_data) (i : nat) : probe_m nat :=
  match muxes with
  | [] => pret i
  | mux_data :: rest =>
      do hw <- framework_register env
                 (clk_hw_register_mux_table (mux_name mux_data)
                    (mux_parent_names mux_data) (mux_num_parents mux_data)
                    (mux_flags mux_data) (clk_base + NPCM8XX_CLKSEL)
                    (mux_shift mux_data) (mux_mask mux_data)
                    (mux_table mux_data));
      if IS_ERR hw then pexit (goto_err_mux_clk hw i)
      else
        do _ <- store_onecell env (mux_onecell_idx mux_data) hw;
        register_muxes env clk_base rest (S i)
  end.

(** The probe after the reference clock: the PLLs, the fixed
    dividers, the dividers, the muxes and the clock provider. *)
Definition npcm8xx_clk_probe_rest (env : platform) (clk_base : Z)
    : probe_m Z :=
  do _ <- register_plls env clk_base npcm8xx_plls;
  do _ <- register_fixed_factor env NPCM8XX_CLK_S_PLL1_DIV2
            NPCM8XX_CLK_S_PLL1 0 1 2;
  do _ <- register_fixed_factor env NPCM8XX_CLK_S_PLL2_DIV2
            NPCM8XX_CLK_S_PLL2 0 1 2;
  do _ <- register_fixed_factor env NPCM8XX_CLK_S_PRE_CLK
            NPCM8XX_CLK_S_CPU_MUX 0 1 2;
  do _ <- register_fixed_factor env NPCM8XX_CLK_S_AXI
            NPCM8XX_CLK_S_TH 0 1 2;
  do _ <- register_fixed_factor env NPCM8XX_CLK_S_ATB
            NPCM8XX_CLK_S_AXI 0 1 2;
  do _ <- register_divs env clk_base npcm8xx_divs;
  do i <- register_muxes env clk_base npcm8xx_muxes 0;
  let err := devm_of_clk_add_hw_provider env in
  if negb (err =? 0) then pexit (goto_err_mux_clk (ERR_PTR err) i)
  else pret err.

(** The probe from the registration of the reference clock on. *)
Definition npcm8xx_clk_probe_body (env : platform) (clk_base : Z)
    : probe_m Z :=
  do hw <- framework_register env
             (clk_hw_register_fixed_rate "refclk" None 0 NPCM8XX_REF_CLK);
  if IS_ERR hw then pexit (exit_return (PTR_ERR hw))
  else
    do _ <- store_hws (binding env "NPCM8XX_CLK_REFCLK") hw;
    npcm8xx_clk_probe_rest env clk_base.

(** The loop at [err_mux_clk]: [while (i--)], unregistering the muxes
    that have an export index through their slot of [hws]. *)
Fixpoint err_mux_clk (env : platform) (i : nat) (st : probe_state)
    : probe_state :=
  match i with
  | O => st
  | S i' =>
      let st' :=
        match nth_error npcm8xx_muxes i' with
        | Some mux_data =>
            let idx := onecell_value env (mux_onecell_idx mux_data) in
            {| hws := hws st;
               registered_clks := registered_clks st;
               unregistered := if 0 <=? idx
                               then unregistered st ++ [hws st idx]
                               else unregistered st |}
        | None => st
        end in
      err_mux_clk env i' st'
  end.

(** The statement at [unregister_refclk]. *)
Definition unregister_refclk (env : platform) (st : probe_state)
    : probe_state :=
  unregister (hws st (binding env "NPCM8XX_CLK_REFCLK")) st.

(** The state before any clock is registered, [hws] filled with
    [ERR_PTR(-EPROBE_DEFER)]. *)
Definition probe_state_init : probe_state :=
  {| hws := fun _ => ERR_PTR (- EPROBE_DEFER);
     registered_clks := [];
     unregistered := [] |}.

(** What the probe does once it has left its straight path: the
    cleanup below the label it went to, and its return value. *)
Definition probe_cleanup (env : platform) (ex : probe_exit)
    (st : probe_state) : Z * probe_state :=
  match ex with
  | exit_return err => (err, st)
  | goto_unregister_refclk hw => (PTR_ERR hw, unregister_refclk env st)
  | goto_err_mux_clk hw i =>
      (PTR_ERR hw, unregister_refclk env (err_mux_clk env i st))
  end.

(** [npcm8xx_clk_probe]: its return value and the state it leaves. *)
Definition npcm8xx_clk_probe_full (env : platform) : Z * probe_state :=
  if negb (devm_kzalloc_clk_data env) then (- ENOMEM, probe_state_init)
  else
    let err := of_address_to_resource env in
    if negb (err =? 0) then (err, probe_state_init)
    else
      match ioremap env with
      | None => (- ENOMEM, probe_state_init)
      | Some clk_base =>
          match npcm8xx_clk_probe_body env clk_base probe_state_init with
          | (inl err, st) => (err, st)
          | (inr ex, st) => probe_cleanup env ex st
          end
      end.

(** ** What the probe is compared with *)

(** The registration calls keep to the kernel's convention: 0 or a
    negative errno. *)
Definition errno_convention (env : platform) : Prop :=
  forall name,
    clk_hw_register env name = 0
    \/ - MAX_ERRNO <= clk_hw_register env name < 0.

(** The outcome of the attempt to register a clock: for a PLL the
    allocation comes first. *)
Definition attempt (env : platform) (hw : clk_hw) : Z :=
  match clk_kind_of hw with
  | Pll _ =>
      if devm_kzalloc_pll env (clk_name hw)
      then clk_hw_register env (clk_name hw)
      else - ENOMEM
  | _ => clk_hw_register env (clk_name hw)
  end.

(** The clocks of a list up to the first one whose attempt fails. *)
Fixpoint registered_prefix (env : platform) (clks : list clk_hw)
    : list clk_hw :=
  match clks with
  | [] => []
  | hw :: rest =>
      if attempt env hw =? 0 then hw :: registered_prefix env rest else []
  end.

(** The first clock of a list whose attempt fails, with its error. *)
Fixpoint first_failure (env : platform) (clks : list clk_hw)
    : option (clk_hw * Z) :=
  match clks with
  | [] => None
  | hw :: rest =>
      if attempt env hw =? 0 then first_failure env rest
      else Some (hw, attempt env hw)
  end.

(** The binding constant a clock is exported under, by its name: the
    reference clock, or the [onecell_idx] of its row. *)
Definition onecell_of (hw : clk_hw) : option string :=
  if String.eqb (clk_name hw) "refclk" then Some "NPCM8XX_CLK_REFCLK"
  else
    match find (fun d => String.eqb (div_name d) (clk_name hw)) npcm8xx_divs
    with
    | Some d => div_onecell_idx d
    | None =>
        match find (fun mx => String.eqb (mux_name mx) (clk_name hw))
                   npcm8xx_muxes with
        | Some mx => mux_onecell_idx mx
        | None =>
            match find (fun pl => String.eqb (pll_name pl) (clk_name hw))
                       npcm8xx_plls with
            | Some pl => pll_onecell_idx pl
            | None => None
            end
        end
    end.

(** The store into [hws] that follows the registration of a clock. *)
Definition hws_write (env : platform) (hw : clk_hw) : list (Z * clk_ptr) :=
  match onecell_of hw with
  | Some c =>
      if is_fixed_rate hw || (0 <=? binding env c)
      then [(binding env c, Hw hw)]
      else []
  | None => []
  end.

(** An array after a list of stores, in order. *)
Fixpoint hws_after (writes : list (Z * clk_ptr)) (h : Z -> clk_ptr) (i : Z)
    : clk_ptr :=
  match writes with
  | [] => h i
  | (k, p) :: rest => hws_after rest (fun j => if j =? k then p else h j) i
  end.

(** The row of a mux in [npcm8xx_muxes], by its name. *)
Fixpoint mux_position_in (muxes : list npcm8xx_clk_mux_data) (name : string)
    : nat :=
  match muxes with
  | [] => O
  | mx :: rest =>
      if String.eqb (mux_name mx) name then O
      else S (mux_position_in rest name)
  end.

Definition mux_position (name : string) : nat :=
  mux_position_in npcm8xx_muxes name.

(** Where the probe goes when the attempt to register [hw] has given
    the error pointer [p]. *)
Definition probe_exit_for (hw : clk_hw) (p : clk_ptr) : probe_exit :=
  match clk_kind_of hw with
  | FixedRate _ => exit_return (PTR_ERR p)
  | Mux _ _ _ _ => goto_err_mux_clk p (mux_position (clk_name hw))
  | _ => goto_unregister_refclk p
  end.

(** How a part of the probe runs against the clocks it is to
    register: it registers them up to the first failure, stores each
    registered clock that has an export index, unregisters nothing,
    and leaves at the failure; without a failure its result
    satisfies [Post]. *)
Definition runs {A} (env : platform) (c : probe_m A) (clks : list clk_hw)
    (Post : A + probe_exit -> Prop) : Prop :=
  forall st, exists out st',
    c st = (out, st')
    /\ registered_clks st'
       = (registered_clks st ++ registered_prefix env clks)%list
    /\ unregistered st' = unregistered st
    /\ (forall i,
          hws st' i
          = hws_after (flat_map (hws_write env) (registered_prefix env clks))
                      (hws st) i)
    /\ match first_failure env clks with
       | Some (hw, e) => out = inr (probe_exit_for hw (ERR_PTR e))
       | None => Post out
       end.

Definition returns_value {A} (out : A + probe_exit) : Prop :=
  exists a, out = inl a.

(** The clocks registered for a row of each table. *)
Definition pll_clk (clk_base : Z) (pl : npcm8xx_clk_pll_data) : clk_hw :=
  npcm8xx_clk_register_pll (clk_base + pll_reg pl) (pll_name pl)
    (pll_parent_name pl) (pll_data_flags pl).

Definition div_clk (clk_base : Z) (d : npcm8xx_clk_div_data) : clk_hw :=
  devm_clk_hw_register_divider (div_name d) (div_parent_name d) (div_flags d)
    (clk_base + div_reg d) (div_shift d) (div_width d) (clk_divider_flags d).

Definition mux_clk (clk_base : Z) (mx : npcm8xx_clk_mux_data) : clk_hw :=
  clk_hw_register_mux_table (mux_name mx) (mux_parent_names mx)
    (mux_num_parents mx) (mux_flags mx) (clk_base + NPCM8XX_CLKSEL)
    (mux_shift mx) (mux_mask mx) (mux_table mx).

(** How the probe ends when no registration fails: with 0, or at
    [err_mux_clk] with the error of the clock provider and [i] past
    the last mux. *)
Definition probe_end (env : platform) (out : Z + probe_exit) : Prop :=
  out = if devm_of_clk_add_hw_provider env =? 0 then inl 0
        else inr (goto_err_mux_clk
                    (ERR_PTR (devm_of_clk_add_hw_provider env))
                    (List.length npcm8xx_muxes)).

(** The binding constants a list of clocks is exported under. *)
Definition constants_of (clks : list clk_hw) : list string :=
  flat_map (fun hw => match onecell_of hw with Some c => [c] | None => [] end)
           clks.

(** The binding constants the probe stores under. *)
Definition export_constants : list string :=
  constants_of (npcm8xx_clk_probe 0).

(** The clocks the probe registers before the muxes. *)
Definition non_mux_clocks (clk_base : Z) : list clk_hw :=
  [ clk_hw_register_fixed_rate "refclk" None 0 NPCM8XX_REF_CLK ]
  ++ map (pll_clk clk_base) npcm8xx_plls
  ++ [ devm_clk_hw_register_fixed_factor NPCM8XX_CLK_S_PLL1_DIV2
         NPCM8XX_CLK_S_PLL1 0 1 2;
       devm_clk_hw_register_fixed_factor NPCM8XX_CLK_S_PLL2_DIV2
         NPCM8XX_CLK_S_PLL2 0 1 2;
       devm_clk_hw_register_fixed_factor NPCM8XX_CLK_S_PRE_CLK
         NPCM8XX_CLK_S_CPU_MUX 0 1 2;
       devm_clk_hw_register_fixed_factor NPCM8XX_CLK_S_AXI
         NPCM8XX_CLK_S_TH 0 1 2;
       devm_clk_hw_register_fixed_factor NPCM8XX_CLK_S_ATB
         NPCM8XX_CLK_S_AXI 0 1 2 ]
  ++ map (div_clk clk_base) npcm8xx_divs.

(** The binding constants used are distinct, non-negative indices. *)
Definition bindings_distinct (env : platform) : Prop :=
  NoDup (map (binding env) export_constants)
  /\ Forall (fun c => 0 <= binding env c) export_constants.

(** The clocks the probe gives no export index: the PLLs, the fixed
    dividers and the muxes other than [cpu] and [gfx_pixel]. *)
Definition not_exported_kind (hw : clk_hw) : bool :=
  match clk_kind_of hw with
  | Pll _ => true
  | FixedFactorDivider _ _ => true
  | Mux _ _ _ _ =>
      negb (String.eqb (clk_name hw) NPCM8XX_CLK_S_CPU_MUX
            || String.eqb (clk_name hw) NPCM8XX_CLK_S_PIX_MUX)
  | _ => false
  end.

(** A mux that has an export index. *)
Definition exported_mux (hw : clk_hw) : bool :=
  match clk_kind_of hw, onecell_of hw with
  | Mux _ _ _ _, Some _ => true
  | _, _ => false
  end.

(** The reference clock as registered. *)
Definition refclk_hw : clk_hw :=
  clk_hw_register_fixed_rate "refclk" None 0 NPCM8XX_REF_CLK.

(** ** Sample platforms *)

Fixpoint position_of (c : string) (l : list string) : Z :=
  match l with
  | [] => 0
  | x :: rest => if String.eqb x c then 0 else 1 + position_of c rest
  end.

(** Binding values by position in [export_constants]. *)
Definition binding_sample (c : string) : Z := position_of c export_constants.

(** A platform mapped at 0 on which every call succeeds, except that
    the registration of the clock [failing] returns [error] and the
    clock provider returns [provider]. *)
Definition platform_sample (failing : string) (error provider : Z)
    : platform :=
  {| binding := binding_sample;
     devm_kzalloc_clk_data := true;
     of_address_to_resource := 0;
     ioremap := Some 0;
     devm_kzalloc_pll := fun _ => true;
     clk_hw_register :=
       fun name => if String.eqb name failing then error else 0;
     devm_of_clk_add_hw_provider := provider |}.

(** ** The layout of the tables *)

(** The register bits of the selector of a mux, in CLKSEL. *)
Definition mux_field_mask (mx : npcm8xx_clk_mux_data) : Z :=
  Z.shiftl (mux_mask mx) (mux_shift mx).


(** [ancestor clks child a]: [a] is reached from [child] by parent
    references through registered clocks. *)
Inductive ancestor (clks : list clk_hw) : string -> string -> Prop :=
| ancestor_parent child hw parent :
    clk_lookup clks child = Some hw ->
    In parent (clk_parent_names hw) ->
    ancestor clks child parent
| ancestor_step child middle a :
    ancestor clks child middle ->
    ancestor clks middle a ->
    ancestor clks child a.

(** Pairwise distinct names, decided. *)
Fixpoint distinct_names (names : list string) : bool :=
  match names with
  | [] => true
  | name :: rest =>
      negb (existsb (String.eqb name) rest) && distinct_names rest
  end.

(** * Properties *)

(** Closed facts about concrete inputs, by evaluation. *)
Ltac by_evaluation :=
  vm_compute; repeat split; try reflexivity; try discriminate; easy.

(** Membership of a concrete row in a concrete table. *)
Ltac in_table := repeat (first [left; reflexivity | right]).

(** ** Bit fields *)

Lemma extract_div_mod (word shift width : Z) :
  0 <= shift -> 0 <= width ->
  extract word shift width = (word / 2 ^ shift) mod 2 ^ width.
Proof.
  intros Hs Hw. unfold extract.
  rewrite Z.land_ones by assumption.
  now rewrite Z.shiftr_div_pow2 by assumption.
Qed.

Lemma extract_range (word shift width : Z) :
  0 <= shift -> 0 <= width ->
  0 <= extract word shift width < 2 ^ width.
Proof.
  intros Hs Hw. rewrite extract_div_mod by assumption.
  apply Z.mod_pos_bound. now apply Z.pow_pos_nonneg.
Qed.

(** A field taken with a [GENMASK] mask is the spec's [extract]. *)
Lemma FIELD_GET_GENMASK (h l val : Z) :
  0 <= l <= h -> __bf_shf (GENMASK h l) = l ->
  FIELD_GET (GENMASK h l) val = extract val l (h - l + 1).
Proof.
  intros Hhl Hshf. unfold FIELD_GET, extract. rewrite Hshf.
  unfold GENMASK. rewrite Z.shiftr_land.
  now rewrite Z.shiftr_shiftl_l, Z.sub_diag, Z.shiftl_0_r by lia.
Qed.

Lemma INDV_extract val : INDV val = extract val 0 6.
Proof. apply (FIELD_GET_GENMASK 5 0); [lia | reflexivity]. Qed.

Lemma OTDV1_extract val : OTDV1 val = extract val 8 3.
Proof. apply (FIELD_GET_GENMASK 10 8); [lia | reflexivity]. Qed.

Lemma OTDV2_extract val : OTDV2 val = extract val 13 3.
Proof. apply (FIELD_GET_GENMASK 15 13); [lia | reflexivity]. Qed.

Lemma FBDV_extract val : FBDV val = extract val 16 12.
Proof. apply (FIELD_GET_GENMASK 27 16); [lia | reflexivity]. Qed.

Lemma INDV_range val : 0 <= INDV val < 64.
Proof. rewrite INDV_extract. apply (extract_range val 0 6); lia. Qed.

Lemma OTDV1_range val : 0 <= OTDV1 val < 8.
Proof. rewrite OTDV1_extract. apply (extract_range val 8 3); lia. Qed.

Lemma OTDV2_range val : 0 <= OTDV2 val < 8.
Proof. rewrite OTDV2_extract. apply (extract_range val 13 3); lia. Qed.

Lemma FBDV_range val : 0 <= FBDV val < 4096.
Proof. rewrite FBDV_extract. apply (extract_range val 16 12); lia. Qed.

(** The divisor of the PLL formula fits every integer type it passes
    through. *)
Lemma pll_divisor_range val :
  0 <= INDV val * OTDV1 val * OTDV2 val < 4096.
Proof.
  pose proof (INDV_range val) as Hi. pose proof (OTDV1_range val) as H1.
  pose proof (OTDV2_range val) as H2.
  assert (0 <= INDV val * OTDV1 val <= 441) as H12 by nia.
  set (x := INDV val * OTDV1 val) in *. nia.
Qed.

Lemma pll_divisor_pos val :
  1 <= INDV val -> 1 <= OTDV1 val -> 1 <= OTDV2 val ->
  0 < INDV val * OTDV1 val * OTDV2 val.
Proof. nia. Qed.

(** ** Integer conversions *)

Lemma BITS_PER_LONG_cases m :
  2 ^ BITS_PER_LONG m = 2 ^ 32 \/ 2 ^ BITS_PER_LONG m = 2 ^ 64.
Proof. destruct m; [left | right]; reflexivity. Qed.

Lemma ulong_small m x : 0 <= x < 2 ^ BITS_PER_LONG m -> ulong m x = x.
Proof. intros H. unfold ulong. now apply Z.mod_small. Qed.

Lemma ulong_small32 m x : 0 <= x < 2 ^ 32 -> ulong m x = x.
Proof.
  intros H. apply ulong_small.
  destruct (BITS_PER_LONG_cases m) as [E | E]; rewrite E; lia.
Qed.

Lemma ulong_range m x : 0 <= ulong m x < 2 ^ BITS_PER_LONG m.
Proof.
  unfold ulong. apply Z.mod_pos_bound.
  destruct (BITS_PER_LONG_cases m) as [E | E]; rewrite E; lia.
Qed.

Lemma u64_small x : 0 <= x < 2 ^ 64 -> u64 x = x.
Proof. intros H. unfold u64. now apply Z.mod_small. Qed.

Lemma u64_idem x : u64 (u64 x) = u64 x.
Proof. unfold u64. apply Z.mod_mod. lia. Qed.

Lemma u32_small x : 0 <= x < 2 ^ 32 -> u32 x = x.
Proof. intros H. unfold u32. now apply Z.mod_small. Qed.

Lemma ulong_lt_u64 m x : 0 <= x < 2 ^ BITS_PER_LONG m -> 0 <= x < 2 ^ 64.
Proof.
  intros H. destruct (BITS_PER_LONG_cases m) as [E | E]; rewrite E in H; lia.
Qed.

(** ** The PLL rate computation *)

(** What the computation does for a nonzero parent rate: one read of
    the control word, then the trap or the wrapped quotient. *)
Lemma pll_recalc_rate_run m pll parent_rate regs log :
  parent_rate <> 0 ->
  npcm8xx_clk_pll_recalc_rate m pll parent_rate regs log =
  let val := read32 regs (pllcon pll) in
  let d := INDV val * OTDV1 val * OTDV2 val in
  (if d =? 0 then Trap
   else Ret (ulong m (u64 (u64 parent_rate * FBDV val) / d)),
   pllcon pll :: log).
Proof.
  intros Hp. unfold npcm8xx_clk_pll_recalc_rate.
  apply Z.eqb_neq in Hp. rewrite Hp.
  unfold bind, readl_relaxed, do_div, ret. cbv zeta.
  fold (read32 regs (pllcon pll)).
  set (val := read32 regs (pllcon pll)).
  fold (INDV val) (OTDV1 val) (OTDV2 val) (FBDV val).
  pose proof (INDV_range val) as Hi. pose proof (OTDV1_range val) as H1.
  pose proof (OTDV2_range val) as H2.
  pose proof (pll_divisor_range val) as Hd.
  rewrite (ulong_small32 m (INDV val * OTDV1 val)) by nia.
  rewrite (ulong_small32 m (INDV val * OTDV1 val * OTDV2 val)) by lia.
  rewrite (u32_small (INDV val * OTDV1 val * OTDV2 val)) by lia.
  rewrite u64_idem.
  destruct (INDV val * OTDV1 val * OTDV2 val =? 0); reflexivity.
Qed.

(** C1, as amended.  For a nonzero parent rate and a control word
    whose INDV, OTDV1 and OTDV2 fields are all at least 1, when
    [parent_rate * FBDV] fits 64 bits and the quotient fits an
    [unsigned long], the computation reads the control word once and
    returns [parent_rate * FBDV / (INDV * OTDV1 * OTDV2)], rounded
    down; the fields are bits 5:0, 10:8, 15:13 and 27:16 of the word
    read. *)
Theorem pll_recalc_rate_formula m pll regs parent_rate :
  let val := read32 regs (pllcon pll) in
  0 < parent_rate < 2 ^ BITS_PER_LONG m ->
  1 <= INDV val -> 1 <= OTDV1 val -> 1 <= OTDV2 val ->
  parent_rate * FBDV val < 2 ^ 64 ->
  parent_rate * FBDV val / (INDV val * OTDV1 val * OTDV2 val)
    < 2 ^ BITS_PER_LONG m ->
  npcm8xx_clk_pll_recalc_rate m pll parent_rate regs [] =
    (Ret (parent_rate * FBDV val / (INDV val * OTDV1 val * OTDV2 val)),
     [pllcon pll])
  /\ INDV val = extract val 0 6 /\ OTDV1 val = extract val 8 3
  /\ OTDV2 val = extract val 13 3 /\ FBDV val = extract val 16 12.
Proof.
  intros val Hp Hi H1 H2 Hmul Hquot.
  split; [| repeat split;
            auto using INDV_extract, OTDV1_extract, OTDV2_extract,
                       FBDV_extract].
  rewrite pll_recalc_rate_run by lia. cbv zeta. fold val.
  pose proof (pll_divisor_pos val Hi H1 H2) as Hd.
  pose proof (FBDV_range val) as Hf.
  destruct (Z.eqb_spec (INDV val * OTDV1 val * OTDV2 val) 0) as [E | _];
    [lia |].
  rewrite (u64_small parent_rate) by (apply (ulong_lt_u64 m); lia).
  rewrite u64_small by nia.
  rewrite ulong_small; [reflexivity |].
  split; [| assumption].
  apply Z.div_pos; nia.
Qed.

Lemma pll_recalc_rate_formula_witness :
  npcm8xx_clk_pll_recalc_rate LP64 pll0_hw 25000000
    (regs_const (pllcon_encode 1 64 2 1)) [] = (Ret 800000000, [12]).
Proof.
  refine (proj1 (pll_recalc_rate_formula LP64 pll0_hw
                   (regs_const (pllcon_encode 1 64 2 1)) 25000000
                   _ _ _ _ _ _));
    by_evaluation.
Defined.

(** C1, as stated, fails: a control word with a zero divider field
    makes the computation trap; on LP64 a large parent rate makes the
    product wrap at 64 bits; on ILP32 a quotient above 32 bits is cut
    to an [unsigned long]. *)
Lemma pll_recalc_rate_formula_counterexample :
  result (npcm8xx_clk_pll_recalc_rate LP64 pll0_hw 25000000) (regs_const 0)
    <> Ret (25000000 * FBDV 0 / (INDV 0 * OTDV1 0 * OTDV2 0))
  /\ result (npcm8xx_clk_pll_recalc_rate LP64 pll0_hw (2 ^ 63))
            (regs_const (pllcon_encode 1 2 1 1))
     <> Ret (2 ^ 63 * FBDV (pllcon_encode 1 2 1 1)
             / (INDV (pllcon_encode 1 2 1 1) * OTDV1 (pllcon_encode 1 2 1 1)
                * OTDV2 (pllcon_encode 1 2 1 1)))
  /\ result (npcm8xx_clk_pll_recalc_rate ILP32 pll0_hw (2 ^ 31))
            (regs_const (pllcon_encode 1 4 1 1))
     <> Ret (2 ^ 31 * FBDV (pllcon_encode 1 4 1 1)
             / (INDV (pllcon_encode 1 4 1 1) * OTDV1 (pllcon_encode 1 4 1 1)
                * OTDV2 (pllcon_encode 1 4 1 1))).
Proof. by_evaluation. Qed.

(** C4.  With a parent rate of 0 the computation returns 0 at once:
    it reads no register (the log is unchanged), so nothing derived
    from the control word is computed and the division is not
    reached, whatever the register contents. *)
Theorem pll_recalc_rate_zero_parent m pll regs log :
  npcm8xx_clk_pll_recalc_rate m pll 0 regs log = (Ret 0, log).
Proof. reflexivity. Qed.

(** C9.  Two control words that agree on the INDV, OTDV1, OTDV2 and
    FBDV fields give the same outcome of the rate computation for
    every parent rate, whatever their other bits are. *)
Theorem pll_recalc_rate_fields_only m pll regs1 regs2 parent_rate :
  let val1 := read32 regs1 (pllcon pll) in
  let val2 := read32 regs2 (pllcon pll) in
  INDV val1 = INDV val2 -> OTDV1 val1 = OTDV1 val2 ->
  OTDV2 val1 = OTDV2 val2 -> FBDV val1 = FBDV val2 ->
  npcm8xx_clk_pll_recalc_rate m pll parent_rate regs1 [] =
  npcm8xx_clk_pll_recalc_rate m pll parent_rate regs2 [].
Proof.
  intros val1 val2 Hi H1 H2 Hf.
  destruct (Z.eq_dec parent_rate 0) as [-> | Hp]; [reflexivity |].
  rewrite !pll_recalc_rate_run by assumption. cbv zeta.
  fold val1 val2. now rewrite Hi, H1, H2, Hf.
Qed.

Lemma pll_recalc_rate_fields_only_witness :
  pllcon_encode 1 64 2 1 <> pllcon_status_set (pllcon_encode 1 64 2 1) /\
  npcm8xx_clk_pll_recalc_rate LP64 pll0_hw 25000000
    (regs_const (pllcon_encode 1 64 2 1)) [] =
  npcm8xx_clk_pll_recalc_rate LP64 pll0_hw 25000000
    (regs_const (pllcon_status_set (pllcon_encode 1 64 2 1))) [].
Proof.
  split; [by_evaluation |].
  refine (pll_recalc_rate_fields_only LP64 pll0_hw _ _ 25000000 _ _ _ _);
    by_evaluation.
Defined.

(** C10.  For a nonzero parent rate the computation divides by
    [INDV * OTDV1 * OTDV2] unguarded: it traps exactly when that
    product is 0.  When each of the three fields is at least 1 it
    does not trap and returns a rate. *)
Theorem pll_recalc_rate_division m pll regs parent_rate :
  let val := read32 regs (pllcon pll) in
  let run := result (npcm8xx_clk_pll_recalc_rate m pll parent_rate) regs in
  parent_rate <> 0 ->
  (run = Trap <-> INDV val * OTDV1 val * OTDV2 val = 0)
  /\ (1 <= INDV val -> 1 <= OTDV1 val -> 1 <= OTDV2 val ->
      exists rate, run = Ret rate).
Proof.
  intros val run Hp. subst run. unfold result.
  rewrite pll_recalc_rate_run by assumption. cbv zeta. fold val.
  cbn [fst].
  destruct (Z.eqb_spec (INDV val * OTDV1 val * OTDV2 val) 0) as [E | E].
  - split; [tauto |]. intros Hi H1 H2.
    pose proof (pll_divisor_pos val Hi H1 H2). lia.
  - split; [split; [discriminate | contradiction] |].
    intros _ _ _. eexists. reflexivity.
Qed.

Lemma pll_recalc_rate_division_witness :
  result (npcm8xx_clk_pll_recalc_rate LP64 pll0_hw 25000000) (regs_const 0)
    = Trap
  /\ exists rate,
       result (npcm8xx_clk_pll_recalc_rate LP64 pll0_hw 25000000)
              (regs_const (pllcon_encode 1 64 2 1)) = Ret rate.
Proof.
  split.
  - apply (proj1 (pll_recalc_rate_division LP64 pll0_hw (regs_const 0)
                    25000000 ltac:(discriminate))).
    reflexivity.
  - apply (proj2 (pll_recalc_rate_division LP64 pll0_hw
                    (regs_const (pllcon_encode 1 64 2 1)) 25000000
                    ltac:(discriminate)));
      by_evaluation.
Defined.

Lemma pll_result_range m pll parent_rate regs rate :
  result (npcm8xx_clk_pll_recalc_rate m pll parent_rate) regs = Ret rate ->
  0 <= rate < 2 ^ BITS_PER_LONG m.
Proof.
  unfold result. intros H.
  destruct (Z.eq_dec parent_rate 0) as [-> | Hp].
  - injection H as <-.
    destruct (BITS_PER_LONG_cases m) as [B | B]; rewrite B; lia.
  - rewrite pll_recalc_rate_run in H by assumption.
    cbv zeta in H. cbn [fst] in H.
    destruct (_ =? 0) in H; [discriminate |].
    injection H as <-. apply ulong_range.
Qed.

(** ** The divider and the mux table *)

(** The divisor of a divider is never 0. *)
Lemma divider_divisor_pos flags field :
  0 <= field -> 1 <= divider_divisor flags field.
Proof.
  intros H. unfold divider_divisor.
  destruct (has_flag flags CLK_DIVIDER_POWER_OF_TWO); [| lia].
  pose proof (Z.pow_pos_nonneg 2 field). lia.
Qed.

Lemma mux_index_lt raw table index :
  mux_index raw table = Some index -> (index < List.length table)%nat.
Proof.
  revert index. induction table as [| v rest IH]; intros index H;
    [discriminate |].
  cbn [mux_index] in H. destruct (v =? raw).
  - injection H as <-. cbn. lia.
  - destruct (mux_index raw rest) as [j |]; [| discriminate].
    injection H as <-. specialize (IH j eq_refl). cbn. lia.
Qed.

(** The entry found is the first one that holds the raw value. *)
Lemma mux_index_nth raw table index :
  mux_index raw table = Some index ->
  nth_error table index = Some raw
  /\ forall j, (j < index)%nat -> nth_error table j <> Some raw.
Proof.
  revert index. induction table as [| v rest IH]; intros index H;
    [discriminate |].
  cbn [mux_index] in H. destruct (Z.eqb_spec v raw) as [-> | Hne].
  - injection H as <-. split; [reflexivity | intros j Hj; lia].
  - destruct (mux_index raw rest) as [k |]; [| discriminate].
    injection H as <-. destruct (IH k eq_refl) as [Hk Hfirst].
    split; [exact Hk |]. intros [| j] Hj; cbn.
    + intros [= E]. contradiction.
    + apply Hfirst. lia.
Qed.

Lemma mux_index_None raw table :
  mux_index raw table = None <-> ~ In raw table.
Proof.
  induction table as [| v rest IH]; cbn [mux_index In]; [tauto |].
  destruct (Z.eqb_spec v raw) as [-> | Hne].
  - split; [discriminate | tauto].
  - destruct (mux_index raw rest) as [k |]; cbn [option_map].
    + split; [discriminate |]. intros Hn. exfalso. apply Hn. right.
      destruct IH as [_ IH2].
      destruct (in_dec Z.eq_dec raw rest) as [Hin | Hnin]; [exact Hin |].
      specialize (IH2 Hnin). discriminate.
    + split; [| reflexivity]. intros _ [E | Hin]; [contradiction |].
      now apply (proj1 IH).
Qed.

(** ** The probe's table *)

Lemma clk_lookup_Some clks name hw :
  clk_lookup clks name = Some hw -> In hw clks /\ clk_name hw = name.
Proof.
  intros H. apply find_some in H. destruct H as [Hin Heq].
  now apply String.eqb_eq in Heq.
Qed.

Lemma probe_ranked clk_base : ranked (npcm8xx_clk_probe clk_base) = true.
Proof. vm_compute. reflexivity. Qed.

Lemma probe_rank_bounded clk_base :
  rank_bounded (npcm8xx_clk_probe clk_base) = true.
Proof. vm_compute. reflexivity. Qed.

Lemma probe_sane clk_base :
  forallb node_sane (npcm8xx_clk_probe clk_base) = true.
Proof. vm_compute. reflexivity. Qed.

(** ** Fuel *)

Section Resolution.

Variable m : long_model.
Variable clks : list clk_hw.
Variable regs : regfile.
Hypothesis clks_ranked : ranked clks = true.
Hypothesis clks_bounded : rank_bounded clks = true.

Lemma parent_rank hw parent :
  In hw clks -> In parent (clk_parent_names hw) ->
  (rank clks parent < rank clks (clk_name hw))%nat.
Proof.
  intros Hhw Hp. unfold ranked in clks_ranked.
  rewrite forallb_forall in clks_ranked.
  specialize (clks_ranked hw Hhw). rewrite forallb_forall in clks_ranked.
  now apply Nat.ltb_lt, clks_ranked.
Qed.

(** The formulas only ask for the rates of the clock's parents. *)
Lemma resolve_node_ext rec1 rec2 hw :
  (forall parent, In parent (clk_parent_names hw) ->
                  rec1 parent = rec2 parent) ->
  resolve_node m regs rec1 hw = resolve_node m regs rec2 hw.
Proof.
  intros Hrec. unfold resolve_node.
  destruct (clk_kind_of hw) as [r | pll | mult div | reg sh w fl | reg sh mk tb].
  - reflexivity.
  - destruct (clk_parent_names hw) as [| p [| q l]]; try reflexivity.
    now rewrite (Hrec p) by (left; reflexivity).
  - destruct (clk_parent_names hw) as [| p [| q l]]; try reflexivity.
    now rewrite (Hrec p) by (left; reflexivity).
  - destruct (clk_parent_names hw) as [| p [| q l]]; try reflexivity.
    now rewrite (Hrec p) by (left; reflexivity).
  - cbv zeta. destruct (mux_index _ tb) as [i |]; [| reflexivity].
    destruct (nth_error (clk_parent_names hw) i) as [p |] eqn:E;
      [| reflexivity].
    apply Hrec. eapply nth_error_In, E.
Qed.

(** More fuel than the depth of the clock changes nothing. *)
Lemma resolve_fuel_stable fuel :
  forall name, (rank clks name < fuel)%nat ->
  resolve_fuel m clks regs (S fuel) name = resolve_fuel m clks regs fuel name.
Proof.
  induction fuel as [| fuel IH]; intros name Hr; [lia |].
  change (resolve_fuel m clks regs (S (S fuel)) name)
    with (match clk_lookup clks name with
          | None => Fail InvalidConfiguration
          | Some hw =>
              resolve_node m regs (resolve_fuel m clks regs (S fuel)) hw
          end).
  change (resolve_fuel m clks regs (S fuel) name)
    with (match clk_lookup clks name with
          | None => Fail InvalidConfiguration
          | Some hw => resolve_node m regs (resolve_fuel m clks regs fuel) hw
          end).
  destruct (clk_lookup clks name) as [hw |] eqn:E; [| reflexivity].
  apply clk_lookup_Some in E. destruct E as [Hin <-].
  apply resolve_node_ext. intros parent Hp. apply IH.
  pose proof (parent_rank hw parent Hin Hp). lia.
Qed.

(** With the table's length as fuel, resolution is the formula of the
    clock applied to the resolution of its parents. *)
Lemma resolve_fuel_length name :
  resolve_fuel m clks regs (List.length clks) name =
  match clk_lookup clks name with
  | None => Fail InvalidConfiguration
  | Some hw =>
      resolve_node m regs (resolve_fuel m clks regs (List.length clks)) hw
  end.
Proof.
  destruct (clk_lookup clks name) as [hw |] eqn:E.
  - pose proof (clk_lookup_Some _ _ _ E) as [Hin Hname].
    assert (rank clks name < List.length clks)%nat as Hr.
    { unfold rank_bounded in clks_bounded.
      rewrite forallb_forall in clks_bounded.
      rewrite <- Hname. now apply Nat.ltb_lt, clks_bounded. }
    destruct (List.length clks) as [| n] eqn:El; [lia |].
    cbn [resolve_fuel]. rewrite E.
    apply resolve_node_ext. intros parent Hp. symmetry.
    apply resolve_fuel_stable.
    pose proof (parent_rank hw parent Hin Hp) as Hlt. rewrite Hname in Hlt.
    lia.
  - destruct (List.length clks); cbn [resolve_fuel]; now rewrite ?E.
Qed.

(** Fuel beyond the table's length is never used. *)
Lemma resolve_fuel_more extra name :
  resolve_fuel m clks regs (extra + List.length clks) name =
  resolve_fuel m clks regs (List.length clks) name.
Proof.
  destruct (clk_lookup clks name) as [hw |] eqn:E.
  - pose proof (clk_lookup_Some _ _ _ E) as [Hin Hname].
    assert (rank clks name < List.length clks)%nat as Hr.
    { unfold rank_bounded in clks_bounded.
      rewrite forallb_forall in clks_bounded.
      rewrite <- Hname. now apply Nat.ltb_lt, clks_bounded. }
    induction extra as [| extra IH]; [reflexivity |].
    cbn [Nat.add]. rewrite resolve_fuel_stable by lia. exact IH.
  - assert (forall fuel, resolve_fuel m clks regs fuel name
                         = Fail InvalidConfiguration) as Hnone
      by (intros [| fuel]; cbn [resolve_fuel]; now rewrite ?E).
    now rewrite !Hnone.
Qed.

Hypothesis clks_sane : forallb node_sane clks = true.

Lemma clks_node_sane hw : In hw clks -> node_sane hw = true.
Proof. intros H. rewrite forallb_forall in clks_sane. auto. Qed.

(** Every resolved rate is an [unsigned long]. *)
Lemma resolve_fuel_range fuel :
  forall name rate,
  resolve_fuel m clks regs fuel name = Ret rate ->
  0 <= rate < 2 ^ BITS_PER_LONG m.
Proof.
  induction fuel as [| fuel IH]; intros name rate H; [discriminate |].
  cbn [resolve_fuel] in H.
  destruct (clk_lookup clks name) as [hw |] eqn:E; [| discriminate].
  apply clk_lookup_Some in E. destruct E as [Hin _].
  pose proof (clks_node_sane hw Hin) as Hs.
  unfold node_sane in Hs. unfold resolve_node in H. cbv zeta in Hs.
  destruct (clk_kind_of hw) as [r | pll | mult div | reg sh w fl | reg sh mk tb].
  - injection H as <-.
    destruct (BITS_PER_LONG_cases m) as [B | B]; rewrite B; lia.
  - destruct (clk_parent_names hw) as [| p [| q l]]; try discriminate.
    destruct (resolve_fuel m clks regs fuel p) as [pr | |] eqn:R;
      try discriminate.
    cbn [obind] in H.
    eapply pll_result_range, H.
  - destruct (clk_parent_names hw) as [| p [| q l]]; try discriminate.
    destruct (resolve_fuel m clks regs fuel p) as [pr | |] eqn:R;
      try discriminate.
    cbn [obind] in H. apply IH in R.
    destruct (pr =? 0); [discriminate |].
    destruct (div =? 0); [discriminate |].
    injection H as <-.
    assert (mult = 1 /\ 0 < div) as [-> Hd] by lia.
    rewrite Z.mul_1_r, u64_small by (apply (ulong_lt_u64 m); lia).
    split; [apply Z.div_pos; lia |].
    apply Z.le_lt_trans with pr; [| lia].
    apply Z.div_le_upper_bound; nia.
  - destruct (clk_parent_names hw) as [| p [| q l]]; try discriminate.
    destruct (resolve_fuel m clks regs fuel p) as [pr | |] eqn:R;
      try discriminate.
    cbn [obind] in H. cbv zeta in H. apply IH in R.
    assert (0 <= sh /\ 0 <= w) as [Hsh Hw] by lia.
    pose proof (divider_divisor_pos fl _ (proj1 (extract_range
                  (read32 regs reg) sh w Hsh Hw))) as Hd.
    destruct (Z.eqb_spec (divider_divisor fl
                (extract (read32 regs reg) sh w)) 0) as [Z0 | _];
      [lia |].
    injection H as <-.
    split; [apply Z.div_pos; lia |].
    apply Z.le_lt_trans with pr; [| lia].
    apply Z.div_le_upper_bound; nia.
  - cbv zeta in H.
    destruct (mux_index _ tb) as [i |]; [| discriminate].
    destruct (nth_error (clk_parent_names hw) i) as [p |];
      [| discriminate].
    eapply IH, H.
Qed.

End Resolution.

(** The equation of [resolve]. *)
Lemma resolve_eq m clk_base regs name :
  resolve m clk_base regs name =
  match clk_lookup (npcm8xx_clk_probe clk_base) name with
  | None => Fail InvalidConfiguration
  | Some hw => resolve_node m regs (resolve m clk_base regs) hw
  end.
Proof.
  unfold resolve. cbv zeta.
  apply resolve_fuel_length; [apply probe_ranked | apply probe_rank_bounded].
Qed.

(** Resolution does not depend on the fuel, once it is the table's
    length or more. *)
Lemma resolve_fuel_indep m clk_base regs fuel name :
  (List.length (npcm8xx_clk_probe clk_base) <= fuel)%nat ->
  resolve_fuel m (npcm8xx_clk_probe clk_base) regs fuel name =
  resolve m clk_base regs name.
Proof.
  intros H. unfold resolve. cbv zeta.
  replace fuel
    with ((fuel - List.length (npcm8xx_clk_probe clk_base))
          + List.length (npcm8xx_clk_probe clk_base))%nat by lia.
  apply resolve_fuel_more; [apply probe_ranked | apply probe_rank_bounded].
Qed.

(** Every resolved rate of the probe's table is an [unsigned long]. *)
Lemma resolve_range m clk_base regs name rate :
  resolve m clk_base regs name = Ret rate ->
  0 <= rate < 2 ^ BITS_PER_LONG m.
Proof.
  unfold resolve. cbv zeta.
  apply resolve_fuel_range, probe_sane.
Qed.

(** Names are unique: looking a registered clock up by its name finds
    that clock. *)
Lemma probe_lookup clk_base hw :
  In hw (npcm8xx_clk_probe clk_base) ->
  clk_lookup (npcm8xx_clk_probe clk_base) (clk_name hw) = Some hw.
Proof.
  intros H.
  repeat (destruct H as [<- | H]; [reflexivity |]).
  destruct H.
Qed.

Lemma probe_node_sane clk_base hw :
  In hw (npcm8xx_clk_probe clk_base) -> node_sane hw = true.
Proof.
  intros H. pose proof (probe_sane clk_base) as Hs.
  rewrite forallb_forall in Hs. auto.
Qed.

(** The clock registered for a row of [npcm8xx_divs]. *)
Lemma probe_divider clk_base d :
  In d npcm8xx_divs ->
  In (devm_clk_hw_register_divider (div_name d) (div_parent_name d)
        (div_flags d) (clk_base + div_reg d) (div_shift d) (div_width d)
        (clk_divider_flags d))
     (npcm8xx_clk_probe clk_base).
Proof.
  intros H. unfold npcm8xx_clk_probe.
  apply in_or_app. right. apply in_or_app. right.
  apply in_or_app. right. apply in_or_app. left.
  apply in_map_iff. exists d. split; [reflexivity | assumption].
Qed.

(** The clock registered for a row of [npcm8xx_muxes]. *)
Lemma probe_mux clk_base mx :
  In mx npcm8xx_muxes ->
  In (clk_hw_register_mux_table (mux_name mx) (mux_parent_names mx)
        (mux_num_parents mx) (mux_flags mx) (clk_base + NPCM8XX_CLKSEL)
        (mux_shift mx) (mux_mask mx) (mux_table mx))
     (npcm8xx_clk_probe clk_base).
Proof.
  intros H. unfold npcm8xx_clk_probe.
  apply in_or_app. right. apply in_or_app. right.
  apply in_or_app. right. apply in_or_app. right.
  apply in_map_iff. exists mx. split; [reflexivity | assumption].
Qed.

(** Every mux is registered with its whole parent list. *)
Lemma mux_all_parents mx :
  In mx npcm8xx_muxes ->
  firstn (Z.to_nat (mux_num_parents mx)) (mux_parent_names mx)
  = mux_parent_names mx.
Proof.
  intros H.
  repeat (destruct H as [<- | H]; [reflexivity |]).
  destruct H.
Qed.

(** ** Dividers, muxes and fixed factors *)

(** C2.  A divider of [npcm8xx_divs] without the power-of-two flag
    resolves to the rate of its parent divided by [field + 1], rounded
    down, and one with the flag to the rate of its parent shifted
    right by [field], for every content of its register; a parent that
    does not resolve to a rate is passed on. *)
Theorem divider_resolution m clk_base regs d :
  In d npcm8xx_divs ->
  let field :=
    extract (read32 regs (clk_base + div_reg d)) (div_shift d) (div_width d) in
  resolve m clk_base regs (div_name d) =
  obind (resolve m clk_base regs (div_parent_name d)) (fun parent_rate =>
    Ret (if has_flag (clk_divider_flags d) CLK_DIVIDER_POWER_OF_TWO
         then Z.shiftr parent_rate field
         else parent_rate / (field + 1))).
Proof.
  intros Hd field.
  pose proof (probe_divider clk_base d Hd) as Hin.
  pose proof (probe_node_sane _ _ Hin) as Hs.
  pose proof (probe_lookup _ _ Hin) as Hl.
  cbn [clk_name devm_clk_hw_register_divider] in Hl.
  rewrite resolve_eq, Hl. unfold resolve_node.
  cbn [clk_kind_of clk_parent_names devm_clk_hw_register_divider].
  unfold node_sane in Hs.
  cbn [clk_kind_of clk_parent_names devm_clk_hw_register_divider] in Hs.
  cbv zeta in Hs. cbv zeta. fold field.
  assert (0 <= field) as Hf by (apply extract_range; lia).
  destruct (resolve m clk_base regs (div_parent_name d)) as [pr | e |];
    try reflexivity.
  cbn [obind].
  pose proof (divider_divisor_pos (clk_divider_flags d) field Hf) as Hpos.
  destruct (Z.eqb_spec (divider_divisor (clk_divider_flags d) field) 0)
    as [Z0 | _]; [lia |].
  unfold divider_divisor.
  destruct (has_flag (clk_divider_flags d) CLK_DIVIDER_POWER_OF_TWO);
    [| reflexivity].
  now rewrite Z.shiftr_div_pow2 by assumption.
Qed.

(** C3.  A mux of [npcm8xx_muxes] whose raw selector, taken from
    CLKSEL, is not in its table fails with [UnknownMuxSelection]; when
    the raw value is in the table, at index [i], the mux resolves as
    the parent at index [i] of its parent list does. *)
Theorem mux_resolution m clk_base regs mx :
  In mx npcm8xx_muxes ->
  let raw :=
    extract_mask (read32 regs (clk_base + NPCM8XX_CLKSEL))
                 (mux_shift mx) (mux_mask mx) in
  (~ In raw (mux_table mx) ->
   resolve m clk_base regs (mux_name mx) = Fail UnknownMuxSelection)
  /\ (forall i, mux_index raw (mux_table mx) = Some i ->
      nth_error (mux_table mx) i = Some raw
      /\ exists parent,
           nth_error (mux_parent_names mx) i = Some parent
           /\ resolve m clk_base regs (mux_name mx)
              = resolve m clk_base regs parent).
Proof.
  intros Hm raw.
  pose proof (probe_mux clk_base mx Hm) as Hin.
  pose proof (probe_node_sane _ _ Hin) as Hs.
  pose proof (probe_lookup _ _ Hin) as Hl.
  cbn [clk_name clk_hw_register_mux_table] in Hl.
  rewrite resolve_eq, Hl. unfold resolve_node.
  cbn [clk_kind_of clk_parent_names clk_hw_register_mux_table].
  unfold node_sane in Hs.
  cbn [clk_kind_of clk_parent_names clk_hw_register_mux_table] in Hs.
  rewrite mux_all_parents in * by assumption.
  cbv zeta in Hs. cbv zeta. fold raw.
  split.
  - intros Hn. apply mux_index_None in Hn. now rewrite Hn.
  - intros i Hi. rewrite Hi.
    split; [now apply mux_index_nth |].
    pose proof (mux_index_lt _ _ _ Hi) as Hlt.
    destruct (nth_error (mux_parent_names mx) i) as [p |] eqn:E.
    + exists p. split; reflexivity.
    + apply nth_error_None in E. exfalso.
      apply andb_prop in Hs. destruct Hs as [_ Hlen].
      apply Nat.eqb_eq in Hlen. lia.
Qed.

(** C7.  A fixed-factor divider of the probe's table has one parent
    and resolves to [parent * mult / div], the product being taken in
    64 bits without wrapping; when its parent resolves to 0 it fails
    with [ZeroParentRate]; a parent that does not resolve to a rate is
    passed on. *)
Theorem fixed_factor_resolution m clk_base regs hw mult div :
  In hw (npcm8xx_clk_probe clk_base) ->
  clk_kind_of hw = FixedFactorDivider mult div ->
  exists parent,
    clk_parent_names hw = [parent]
    /\ resolve m clk_base regs (clk_name hw) =
       obind (resolve m clk_base regs parent) (fun parent_rate =>
         if parent_rate =? 0 then Fail ZeroParentRate
         else Ret (parent_rate * mult / div)).
Proof.
  intros Hin Hk.
  pose proof (probe_node_sane _ _ Hin) as Hs.
  pose proof (probe_lookup _ _ Hin) as Hl.
  rewrite resolve_eq, Hl. unfold resolve_node.
  unfold node_sane in Hs. rewrite Hk in *. cbv zeta in Hs.
  destruct (clk_parent_names hw) as [| p [| q l]]; try discriminate.
  exists p. split; [reflexivity |].
  destruct (resolve m clk_base regs p) as [pr | e |] eqn:R;
    try reflexivity.
  cbn [obind]. apply resolve_range in R.
  destruct (pr =? 0); [reflexivity |].
  assert (mult = 1 /\ 0 < div) as [-> Hd] by lia.
  destruct (Z.eqb_spec div 0) as [Z0 | _]; [lia |].
  now rewrite Z.mul_1_r, u64_small by (apply (ulong_lt_u64 m); lia).
Qed.

Lemma divider_resolution_witness :
  resolve LP64 0 pci_regs NPCM8XX_CLK_S_PCI = Ret 200000000.
Proof.
  assert (In pci_div npcm8xx_divs) as Hin by (unfold npcm8xx_divs; in_table).
  refine (eq_trans (divider_resolution LP64 0 pci_regs pci_div Hin) _).
  vm_compute. reflexivity.
Defined.

Lemma mux_resolution_witness :
  resolve LP64 0 pix_regs NPCM8XX_CLK_S_PIX_MUX = Fail UnknownMuxSelection.
Proof.
  assert (In pix_mux npcm8xx_muxes) as Hin
    by (unfold npcm8xx_muxes; in_table).
  refine (proj1 (mux_resolution LP64 0 pix_regs pix_mux Hin) _).
  vm_compute. intros [H | [H | []]]; discriminate H.
Defined.

Lemma fixed_factor_resolution_witness :
  resolve LP64 0 dead_pll1_regs NPCM8XX_CLK_S_PLL1_DIV2
  = Fail ZeroParentRate.
Proof.
  assert (In pll1_div2_hw (npcm8xx_clk_probe 0)) as Hin
    by (unfold npcm8xx_clk_probe; cbn; in_table).
  destruct (fixed_factor_resolution LP64 0 dead_pll1_regs pll1_div2_hw 1 2
              Hin eq_refl) as [parent [Hp Hr]].
  injection Hp as <-.
  refine (eq_trans Hr _). vm_compute. reflexivity.
Defined.

(** ** The parent references and the divider flags *)

Lemma probe_parents_ok clk_base :
  forallb (parents_ok (npcm8xx_clk_probe clk_base))
          (npcm8xx_clk_probe clk_base) = true.
Proof. vm_compute. reflexivity. Qed.

(** C5, as amended.  In the probe's table exactly the fixed-rate
    clock is without a parent, and every parent reference names a
    registered clock, except [sysbypck] in the parent list of the cpu
    mux and [mcbypck] in that of the mc_phy mux: these two names are
    not registered. *)
Theorem probe_parent_references clk_base hw :
  In hw (npcm8xx_clk_probe clk_base) ->
  (clk_parent_names hw = [] <-> is_fixed_rate hw = true)
  /\ (forall parent, In parent (clk_parent_names hw) ->
      registered (npcm8xx_clk_probe clk_base) parent = true
      \/ (clk_name hw = NPCM8XX_CLK_S_CPU_MUX
          /\ parent = NPCM8XX_CLK_S_SYSBYPCK)
      \/ (clk_name hw = NPCM8XX_CLK_S_MC_MUX
          /\ parent = NPCM8XX_CLK_S_MCBYPCK))
  /\ registered (npcm8xx_clk_probe clk_base) NPCM8XX_CLK_S_SYSBYPCK = false
  /\ registered (npcm8xx_clk_probe clk_base) NPCM8XX_CLK_S_MCBYPCK = false.
Proof.
  intros Hin. pose proof (probe_parents_ok clk_base) as Hok.
  rewrite forallb_forall in Hok. specialize (Hok hw Hin).
  unfold parents_ok in Hok. apply andb_prop in Hok.
  destruct Hok as [Hsrc Hpar].
  split; [| split; [| split; reflexivity]].
  - unfold sources_are_fixed_rate in Hsrc. apply Bool.eqb_prop in Hsrc.
    rewrite <- Hsrc.
    destruct (clk_parent_names hw); split; try reflexivity; discriminate.
  - intros parent Hp. rewrite forallb_forall in Hpar.
    specialize (Hpar parent Hp). unfold parent_accounted in Hpar.
    apply orb_prop in Hpar. destruct Hpar as [Hpar | Hmc].
    + apply orb_prop in Hpar. destruct Hpar as [Hreg | Hcpu];
        [left; exact Hreg |].
      apply andb_prop in Hcpu. destruct Hcpu as [H1 H2].
      apply String.eqb_eq in H1, H2. right. left. now split.
    + apply andb_prop in Hmc. destruct Hmc as [H1 H2].
      apply String.eqb_eq in H1, H2. right. right. now split.
Qed.

Lemma probe_parent_references_witness :
  clk_parent_names pll1_div2_hw <> []
  /\ registered (npcm8xx_clk_probe 0) NPCM8XX_CLK_S_PLL1 = true.
Proof.
  assert (In pll1_div2_hw (npcm8xx_clk_probe 0)) as Hin
    by (unfold npcm8xx_clk_probe; cbn; in_table).
  destruct (probe_parent_references 0 pll1_div2_hw Hin) as [Hsrc [Hpar _]].
  split; [discriminate |].
  destruct (Hpar NPCM8XX_CLK_S_PLL1 (or_introl eq_refl))
    as [Hreg | [[Hn _] | [Hn _]]];
    [exact Hreg | discriminate Hn | discriminate Hn].
Defined.

(** C5, as stated, fails: [sysbypck], a candidate parent of the cpu
    mux, and [mcbypck], a candidate parent of the mc_phy mux, are
    names of no registered clock. *)
Lemma probe_parent_references_counterexample :
  parents_registered (npcm8xx_clk_probe 0) = false
  /\ In (clk_hw_register_mux_table (mux_name cpu_mux)
           (mux_parent_names cpu_mux) (mux_num_parents cpu_mux)
           (mux_flags cpu_mux) (0 + NPCM8XX_CLKSEL) (mux_shift cpu_mux)
           (mux_mask cpu_mux) (mux_table cpu_mux))
        (npcm8xx_clk_probe 0)
  /\ In NPCM8XX_CLK_S_SYSBYPCK cpuck_mux_parents
  /\ registered (npcm8xx_clk_probe 0) NPCM8XX_CLK_S_SYSBYPCK = false
  /\ In NPCM8XX_CLK_S_MCBYPCK mccksel_mux_parents
  /\ registered (npcm8xx_clk_probe 0) NPCM8XX_CLK_S_MCBYPCK = false.
Proof.
  split; [vm_compute; reflexivity |].
  split; [unfold npcm8xx_clk_probe; cbn; in_table |].
  split; [unfold cpuck_mux_parents; in_table |].
  split; [vm_compute; reflexivity |].
  split; [unfold mccksel_mux_parents; in_table |].
  vm_compute; reflexivity.
Qed.

(** C6 on the code.  In [npcm8xx_divs] the read-only flag is set in
    every row but the one of [spi3], whose divider flags are 0. *)
Theorem divider_read_only_flags d :
  In d npcm8xx_divs ->
  has_flag (clk_divider_flags d) CLK_DIVIDER_READ_ONLY
  = negb (String.eqb (div_name d) NPCM8XX_CLK_S_SPI3).
Proof.
  intros H.
  repeat (destruct H as [<- | H]; [reflexivity |]).
  destruct H.
Qed.

Lemma divider_read_only_flags_witness :
  In spi3_div npcm8xx_divs
  /\ clk_divider_flags spi3_div = 0
  /\ has_flag (clk_divider_flags spi3_div) CLK_DIVIDER_READ_ONLY = false.
Proof.
  assert (In spi3_div npcm8xx_divs) as Hin
    by (unfold npcm8xx_divs; in_table).
  split; [exact Hin |]. split; [reflexivity |].
  exact (divider_read_only_flags spi3_div Hin).
Defined.

(** ** End to end *)

(** C8.  With the reference clock registered at 25,000,000 Hz and a
    PLL0 control word whose fields are INDV = 1, FBDV = 64, OTDV1 = 2
    and OTDV2 = 1, the rate computation of PLL0 at the reference rate,
    and the resolution of [pll0], give 800,000,000 Hz. *)
Theorem pll0_resolves_to_800MHz m clk_base regs :
  let val := read32 regs (clk_base + NPCM8XX_PLLCON0) in
  INDV val = 1 -> FBDV val = 64 -> OTDV1 val = 2 -> OTDV2 val = 1 ->
  resolve m clk_base regs NPCM8XX_CLK_S_REFCLK = Ret 25000000
  /\ result (npcm8xx_clk_pll_recalc_rate m
               {| pllcon := clk_base + NPCM8XX_PLLCON0; pll_flags := 0 |}
               NPCM8XX_REF_CLK) regs = Ret 800000000
  /\ resolve m clk_base regs NPCM8XX_CLK_S_PLL0 = Ret 800000000.
Proof.
  intros val Hi Hf H1 H2.
  assert (resolve m clk_base regs NPCM8XX_CLK_S_REFCLK = Ret 25000000)
    as Href by (rewrite resolve_eq; reflexivity).
  assert (result (npcm8xx_clk_pll_recalc_rate m
                    {| pllcon := clk_base + NPCM8XX_PLLCON0; pll_flags := 0 |}
                    NPCM8XX_REF_CLK) regs = Ret 800000000) as Hpll.
  { unfold result. rewrite pll_recalc_rate_run by discriminate.
    cbv zeta. cbn [pllcon fst]. fold val. rewrite Hi, Hf, H1, H2.
    destruct m; reflexivity. }
  split; [exact Href |]. split; [exact Hpll |].
  rewrite resolve_eq.
  change (clk_lookup (npcm8xx_clk_probe clk_base) NPCM8XX_CLK_S_PLL0)
    with (Some (npcm8xx_clk_register_pll (clk_base + NPCM8XX_PLLCON0)
                  NPCM8XX_CLK_S_PLL0 NPCM8XX_CLK_S_REFCLK 0)).
  unfold resolve_node.
  cbn [clk_kind_of clk_parent_names npcm8xx_clk_register_pll].
  rewrite Href. cbn [obind]. exact Hpll.
Qed.

Lemma pll0_resolves_to_800MHz_witness :
  resolve LP64 0 pci_regs NPCM8XX_CLK_S_PLL0 = Ret 800000000.
Proof.
  refine (proj2 (proj2 (pll0_resolves_to_800MHz LP64 0 pci_regs _ _ _ _)));
    reflexivity.
Defined.

(** ** The probe: how its parts run *)

Local Open Scope list_scope.

Lemma hws_after_app w1 w2 h i :
  hws_after (w1 ++ w2) h i = hws_after w2 (hws_after w1 h) i.
Proof.
  revert h. induction w1 as [| [k p] w1 IH]; intros h; [reflexivity |].
  cbn [app hws_after]. now rewrite IH.
Qed.

Lemma hws_after_ext ws h1 h2 i :
  (forall j, h1 j = h2 j) -> hws_after ws h1 i = hws_after ws h2 i.
Proof.
  revert h1 h2. induction ws as [| [k p] ws IH]; intros h1 h2 H; cbn;
    [apply H |].
  apply IH. intros j. now rewrite H.
Qed.

(** A key that is stored once holds what was stored; a key that is
    never stored keeps its old content. *)
Lemma hws_after_stored ws h k p :
  NoDup (map fst ws) -> In (k, p) ws -> hws_after ws h k = p.
Proof.
  revert h. induction ws as [| [k' p'] ws IH]; intros h Hnd Hin;
    [destruct Hin |].
  cbn [map fst] in Hnd. inversion Hnd as [| ? ? Hnotin Hnd']; subst.
  destruct Hin as [E | Hin].
  - injection E as -> ->. clear IH.
    cbn [hws_after].
    assert (forall ws' h', ~ In k (map fst ws') -> h' k = p ->
                           hws_after ws' h' k = p) as Hkeep.
    { induction ws' as [| [k2 p2] ws' IH']; intros h' Hn Hh; [exact Hh |].
      cbn [hws_after]. apply IH'.
      - intros Hc. apply Hn. now right.
      - destruct (Z.eqb_spec k k2) as [-> | _]; [| exact Hh].
        exfalso. apply Hn. now left. }
    apply Hkeep; [exact Hnotin | now rewrite Z.eqb_refl].
  - cbn [hws_after]. now apply IH.
Qed.

Lemma hws_after_other ws h k :
  ~ In k (map fst ws) -> hws_after ws h k = h k.
Proof.
  revert h. induction ws as [| [k' p'] ws IH]; intros h Hn; [reflexivity |].
  cbn [hws_after]. rewrite IH by (intros Hc; apply Hn; now right).
  destruct (Z.eqb_spec k k') as [-> | _]; [| reflexivity].
  exfalso. apply Hn. now left.
Qed.

(** What is read from the array was stored or was there before. *)
Lemma hws_after_origin ws h k :
  In (k, hws_after ws h k) ws \/ hws_after ws h k = h k.
Proof.
  revert h. induction ws as [| [k' p'] ws IH]; intros h; [now right |].
  cbn [hws_after].
  destruct (IH (fun j => if j =? k' then p' else h j)) as [Hin | E].
  - left. now right.
  - rewrite E. destruct (Z.eqb_spec k k') as [-> | _]; [| now right].
    left. now left.
Qed.

Lemma registered_prefix_app env l1 l2 :
  registered_prefix env (l1 ++ l2) =
  match first_failure env l1 with
  | Some _ => registered_prefix env l1
  | None => registered_prefix env l1 ++ registered_prefix env l2
  end.
Proof.
  induction l1 as [| hw l1 IH]; [reflexivity |].
  cbn [app registered_prefix first_failure].
  destruct (attempt env hw =? 0); [| reflexivity].
  rewrite IH. now destruct (first_failure env l1).
Qed.

Lemma first_failure_app env l1 l2 :
  first_failure env (l1 ++ l2) =
  match first_failure env l1 with
  | Some f => Some f
  | None => first_failure env l2
  end.
Proof.
  induction l1 as [| hw l1 IH]; [reflexivity |].
  cbn [app first_failure].
  now destruct (attempt env hw =? 0).
Qed.

(** Without a failure the whole list is registered. *)
Lemma registered_prefix_all env l :
  first_failure env l = None -> registered_prefix env l = l.
Proof.
  induction l as [| hw l IH]; [reflexivity |].
  cbn [registered_prefix first_failure].
  destruct (attempt env hw =? 0); [| discriminate].
  intros H. now rewrite IH.
Qed.

Lemma first_failure_None env l :
  first_failure env l = None <-> forall hw, In hw l -> attempt env hw = 0.
Proof.
  induction l as [| hw l IH]; cbn [first_failure In].
  - split; [intros _ hw [] | reflexivity].
  - destruct (Z.eqb_spec (attempt env hw) 0) as [E | E].
    + rewrite IH. split.
      * intros H hw' [<- | Hin]; auto.
      * intros H hw' Hin. apply H. now right.
    + split; [discriminate |]. intros H. exfalso. apply E, H. now left.
Qed.

(** The failing clock is in the list, its attempt gives the error,
    and the clocks registered are those before it. *)
Lemma first_failure_Some env l hw e :
  first_failure env l = Some (hw, e) ->
  e = attempt env hw /\ e <> 0
  /\ exists rest, l = registered_prefix env l ++ hw :: rest.
Proof.
  induction l as [| hw' l IH]; [discriminate |].
  cbn [registered_prefix first_failure].
  destruct (Z.eqb_spec (attempt env hw') 0) as [E | E].
  - intros H. destruct (IH H) as [He [Hne [rest Hl]]].
    split; [exact He |]. split; [exact Hne |].
    exists rest. cbn [app]. now rewrite <- Hl.
  - intros [= <- <-]. split; [reflexivity |]. split; [exact E |].
    exists l. reflexivity.
Qed.

(** Two parts of the probe, one after the other. *)
Lemma runs_bind_post {A B} env (c : probe_m A) (k : A -> probe_m B)
    l1 l2 P1 Post :
  runs env c l1 P1 ->
  (forall out, P1 out -> exists a, out = inl a /\ runs env (k a) l2 Post) ->
  runs env (pbind c k) (l1 ++ l2) Post.
Proof.
  intros H1 H2 st.
  destruct (H1 st) as [out1 [st1 [E1 [R1 [U1 [W1 F1]]]]]].
  unfold pbind. rewrite E1.
  rewrite registered_prefix_app, first_failure_app.
  destruct (first_failure env l1) as [[hw e] |].
  - subst out1. exists (inr (probe_exit_for hw (ERR_PTR e))), st1.
    repeat split; assumption.
  - destruct (H2 out1 F1) as [a [-> Hk]].
    destruct (Hk st1) as [out2 [st2 [E2 [R2 [U2 [W2 F2]]]]]].
    exists out2, st2. split; [exact E2 |].
    split; [now rewrite R2, R1, app_assoc |].
    split; [now rewrite U2 |].
    split; [| exact F2].
    intros i. rewrite W2, flat_map_app, hws_after_app.
    apply hws_after_ext. exact W1.
Qed.

Lemma runs_bind {A B} env (c : probe_m A) (k : A -> probe_m B) l1 l2 Post :
  runs env c l1 returns_value ->
  (forall a, runs env (k a) l2 Post) ->
  runs env (pbind c k) (l1 ++ l2) Post.
Proof.
  intros H1 H2. eapply runs_bind_post; [exact H1 |].
  intros out [a ->]. exists a. split; [reflexivity | apply H2].
Qed.

Lemma runs_pret {A} env (a : A) Post :
  Post (inl a) -> runs env (pret a) [] Post.
Proof.
  intros HP st. exists (inl a), st. cbn.
  repeat split; try reflexivity; [now rewrite app_nil_r | exact HP].
Qed.

Lemma runs_pexit {A} env (e : probe_exit) (Post : A + probe_exit -> Prop) :
  Post (inr e) -> runs env (pexit e) [] Post.
Proof.
  intros HP st. exists (inr e), st. cbn.
  repeat split; try reflexivity; [now rewrite app_nil_r | exact HP].
Qed.

Lemma runs_weaken {A} env (c : probe_m A) l (P Q : A + probe_exit -> Prop) :
  (forall out, P out -> Q out) -> runs env c l P -> runs env c l Q.
Proof.
  intros HPQ H st. destruct (H st) as [out [st' [E [R [U [W F]]]]]].
  exists out, st'. repeat split; try assumption.
  destruct (first_failure env l) as [[hw e] |]; auto.
Qed.

Lemma IS_ERR_errno e : - MAX_ERRNO <= e < 0 -> IS_ERR (ERR_PTR e) = true.
Proof.
  intros H. unfold IS_ERR. apply andb_true_intro.
  split; [apply Z.leb_le | apply Z.ltb_lt]; lia.
Qed.

Lemma IS_ERR_negative p : IS_ERR p = true -> PTR_ERR p < 0.
Proof.
  destruct p as [hw | e]; cbn; [discriminate |].
  intros H. apply andb_prop in H. destruct H as [_ H].
  now apply Z.ltb_lt.
Qed.

(** ** The probe: its rows *)

Section ProbeRows.

Variable env : platform.
Variable clk_base : Z.
Hypothesis convention : errno_convention env.

(** The attempt to register a clock, its check and what follows. *)
Lemma runs_attempt {A} (reg : probe_m clk_ptr) hw mk
    (k : clk_ptr -> probe_m A) l Post :
  (forall st,
     reg st = if attempt env hw =? 0
              then (inl (Hw hw), add_registered hw st)
              else (inl (ERR_PTR (attempt env hw)), st)) ->
  (attempt env hw <> 0 -> IS_ERR (ERR_PTR (attempt env hw)) = true) ->
  (forall p, mk p = probe_exit_for hw p) ->
  (forall st1, exists out st',
     k (Hw hw) st1 = (out, st')
     /\ registered_clks st' = registered_clks st1 ++ registered_prefix env l
     /\ unregistered st' = unregistered st1
     /\ (forall i,
           hws st' i
           = hws_after (hws_write env hw
                        ++ flat_map (hws_write env) (registered_prefix env l))
                       (hws st1) i)
     /\ match first_failure env l with
        | Some (hw', e) => out = inr (probe_exit_for hw' (ERR_PTR e))
        | None => Post out
        end) ->
  runs env (do p <- reg; if IS_ERR p then pexit (mk p) else k p) (hw :: l) Post.
Proof.
  intros Hreg Herr Hmk Hk st. unfold pbind. rewrite Hreg.
  cbn [registered_prefix first_failure flat_map].
  destruct (Z.eqb_spec (attempt env hw) 0) as [E | E].
  - cbn [IS_ERR].
    destruct (Hk (add_registered hw st)) as [out [st' [Ek [R [U [W F]]]]]].
    exists out, st'. split; [exact Ek |].
    split; [rewrite R; cbn [add_registered registered_clks];
            now rewrite <- app_assoc |].
    split; [exact U |]. split; [| exact F].
    intros i. rewrite W. reflexivity.
  - rewrite (Herr E). exists (inr (mk (ERR_PTR (attempt env hw)))), st.
    split; [reflexivity |]. split; [now rewrite app_nil_r |].
    split; [reflexivity |]. split; [reflexivity |].
    now rewrite Hmk.
Qed.

(** A call of the framework is an attempt, for every clock but a PLL. *)
Lemma framework_register_attempt hw :
  (forall pll, clk_kind_of hw <> Pll pll) ->
  (forall st,
     framework_register env hw st
     = if attempt env hw =? 0
       then (inl (Hw hw), add_registered hw st)
       else (inl (ERR_PTR (attempt env hw)), st))
  /\ (attempt env hw <> 0 -> IS_ERR (ERR_PTR (attempt env hw)) = true).
Proof.
  intros Hk.
  assert (attempt env hw = clk_hw_register env (clk_name hw)) as Ea.
  { unfold attempt. destruct (clk_kind_of hw); try reflexivity.
    exfalso. eapply Hk. reflexivity. }
  split.
  - intros st. unfold framework_register. cbv zeta. now rewrite Ea.
  - intros Hne. rewrite Ea in *.
    destruct (convention (clk_name hw)) as [E0 | Hr]; [contradiction |].
    now apply IS_ERR_errno.
Qed.

(** [npcm8xx_clk_register_pll] is an attempt. *)
Lemma register_pll_attempt pllcon name parent_name flags :
  let hw := npcm8xx_clk_register_pll pllcon name parent_name flags in
  (forall st,
     npcm8xx_clk_register_pll_m env pllcon name parent_name flags st
     = if attempt env hw =? 0
       then (inl (Hw hw), add_registered hw st)
       else (inl (ERR_PTR (attempt env hw)), st))
  /\ (attempt env hw <> 0 -> IS_ERR (ERR_PTR (attempt env hw)) = true).
Proof.
  intros hw. unfold attempt, npcm8xx_clk_register_pll_m.
  cbn [hw clk_kind_of clk_name npcm8xx_clk_register_pll].
  destruct (devm_kzalloc_pll env name); cbn [negb].
  - split.
    + intros st. cbv zeta.
      now destruct (clk_hw_register env name =? 0).
    + intros Hne.
      destruct (convention name) as [E0 | Hr]; [contradiction |].
      now apply IS_ERR_errno.
  - split; [reflexivity |]. intros _. reflexivity.
Qed.

(** The store of a row, as a store of [hws_write]. *)
Lemma store_onecell_write hw idx h j :
  onecell_of hw = idx -> is_fixed_rate hw = false ->
  (if 0 <=? onecell_value env idx
   then fun i => if i =? onecell_value env idx then Hw hw else h i
   else h) j
  = hws_after (hws_write env hw) h j.
Proof.
  intros Ho Hf. unfold hws_write. rewrite Ho, Hf. cbn [orb].
  destruct idx as [c |]; cbn [onecell_value].
  - destruct (0 <=? binding env c); reflexivity.
  - reflexivity.
Qed.

(** What follows the check in the loops: the store, then the rest. *)
Lemma runs_after_store {A} hw idx (rest : probe_m A) l Post :
  onecell_of hw = idx -> is_fixed_rate hw = false ->
  runs env rest l Post ->
  forall st1, exists out st',
    (do _ <- store_onecell env idx (Hw hw); rest) st1 = (out, st')
    /\ registered_clks st' = registered_clks st1 ++ registered_prefix env l
    /\ unregistered st' = unregistered st1
    /\ (forall i,
          hws st' i
          = hws_after (hws_write env hw
                       ++ flat_map (hws_write env) (registered_prefix env l))
                      (hws st1) i)
    /\ match first_failure env l with
       | Some (hw', e) => out = inr (probe_exit_for hw' (ERR_PTR e))
       | None => Post out
       end.
Proof.
  intros Ho Hf Hrest st1. unfold pbind, store_onecell.
  match goal with
  | |- context [rest ?s] =>
      destruct (Hrest s) as [out [st' [E [R [U [W F]]]]]]
  end.
  exists out, st'. split; [exact E |]. split; [exact R |].
  split; [exact U |]. split; [| exact F].
  intros i. rewrite W, hws_after_app. apply hws_after_ext.
  intros j. cbn [hws]. now apply store_onecell_write.
Qed.

End ProbeRows.

(** ** The probe: the rows of its tables *)

Lemma div_row_onecell clk_base d :
  In d npcm8xx_divs ->
  onecell_of (devm_clk_hw_register_divider (div_name d) (div_parent_name d)
                (div_flags d) (clk_base + div_reg d) (div_shift d)
                (div_width d) (clk_divider_flags d))
  = div_onecell_idx d.
Proof.
  intros H.
  repeat (destruct H as [<- | H]; [reflexivity |]).
  destruct H.
Qed.

Lemma pll_row_onecell clk_base pl :
  In pl npcm8xx_plls ->
  onecell_of (npcm8xx_clk_register_pll (clk_base + pll_reg pl) (pll_name pl)
                (pll_parent_name pl) (pll_data_flags pl))
  = pll_onecell_idx pl.
Proof.
  intros H.
  repeat (destruct H as [<- | H]; [reflexivity |]).
  destruct H.
Qed.

Lemma mux_row_onecell clk_base mx k :
  nth_error npcm8xx_muxes k = Some mx ->
  onecell_of (clk_hw_register_mux_table (mux_name mx) (mux_parent_names mx)
                (mux_num_parents mx) (mux_flags mx)
                (clk_base + NPCM8XX_CLKSEL) (mux_shift mx) (mux_mask mx)
                (mux_table mx))
  = mux_onecell_idx mx
  /\ mux_position (mux_name mx) = k.
Proof.
  intros H.
  do 13 (destruct k as [| k];
         [injection H as <-; split; reflexivity | cbn [nth_error] in H]).
  destruct k; discriminate H.
Qed.

Section ProbeLoops.

Variable env : platform.
Variable clk_base : Z.
Hypothesis convention : errno_convention env.

Lemma runs_register_plls l :
  incl l npcm8xx_plls ->
  runs env (register_plls env clk_base l) (map (pll_clk clk_base) l) returns_value.
Proof.
  induction l as [| pl l IH]; intros Hl.
  - apply runs_pret. now exists tt.
  - cbn [register_plls map].
    assert (In pl npcm8xx_plls) as Hpl by (apply Hl; now left).
    destruct (register_pll_attempt env convention (clk_base + pll_reg pl)
                (pll_name pl) (pll_parent_name pl) (pll_data_flags pl))
      as [Hreg Herr].
    apply runs_attempt; try assumption; [reflexivity |].
    apply runs_after_store;
      [now apply pll_row_onecell | reflexivity |].
    apply IH. intros x Hx. apply Hl. now right.
Qed.

Lemma runs_register_divs l :
  incl l npcm8xx_divs ->
  runs env (register_divs env clk_base l) (map (div_clk clk_base) l) returns_value.
Proof.
  induction l as [| d l IH]; intros Hl.
  - apply runs_pret. now exists tt.
  - cbn [register_divs map].
    assert (In d npcm8xx_divs) as Hd by (apply Hl; now left).
    destruct (framework_register_attempt env convention (div_clk clk_base d))
      as [Hreg Herr]; [discriminate |].
    apply runs_attempt; try assumption; [reflexivity |].
    apply runs_after_store;
      [now apply div_row_onecell | reflexivity |].
    apply IH. intros x Hx. apply Hl. now right.
Qed.

Lemma runs_register_muxes l :
  forall i,
  (forall k mx, nth_error l k = Some mx ->
                nth_error npcm8xx_muxes (i + k) = Some mx) ->
  runs env (register_muxes env clk_base l i) (map (mux_clk clk_base) l)
       (fun out => out = inl (i + List.length l)%nat).
Proof.
  induction l as [| mx l IH]; intros i Hl.
  - apply runs_pret. cbn. now rewrite Nat.add_0_r.
  - cbn [register_muxes map].
    pose proof (Hl O mx eq_refl) as Hmx. rewrite Nat.add_0_r in Hmx.
    destruct (mux_row_onecell clk_base mx i Hmx) as [Hone Hpos].
    destruct (framework_register_attempt env convention (mux_clk clk_base mx))
      as [Hreg Herr]; [discriminate |].
    apply runs_attempt; try assumption.
    + intros p. unfold probe_exit_for, mux_clk.
      cbn [clk_kind_of clk_name clk_hw_register_mux_table].
      now rewrite Hpos.
    + apply runs_after_store; [exact Hone | reflexivity |].
      eapply runs_weaken; [| apply (IH (S i))].
      * intros out ->. cbn [List.length]. f_equal. lia.
      * intros k mx' Hk. rewrite Nat.add_succ_l, <- Nat.add_succ_r.
        now apply Hl.
Qed.

Lemma runs_register_fixed_factor name parent_name flags mult div :
  onecell_of (devm_clk_hw_register_fixed_factor name parent_name flags
                mult div) = None ->
  runs env (register_fixed_factor env name parent_name flags mult div)
       [devm_clk_hw_register_fixed_factor name parent_name flags mult div]
       returns_value.
Proof.
  intros Hone. unfold register_fixed_factor.
  set (hw := devm_clk_hw_register_fixed_factor name parent_name flags
               mult div) in *.
  destruct (framework_register_attempt env convention hw)
    as [Hreg Herr]; [discriminate |].
  apply runs_attempt; try assumption; [reflexivity |].
  intros st1. exists (inl tt), st1. cbn [registered_prefix first_failure
                                           flat_map].
  split; [reflexivity |]. split; [now rewrite app_nil_r |].
  split; [reflexivity |]. split; [| now exists tt].
  intros i. unfold hws_write. rewrite Hone. reflexivity.
Qed.

(** The clocks the probe registers after the reference clock. *)
Lemma probe_rest_clocks :
  npcm8xx_clk_probe clk_base
  = refclk_hw
    :: (map (pll_clk clk_base) npcm8xx_plls
        ++ [devm_clk_hw_register_fixed_factor NPCM8XX_CLK_S_PLL1_DIV2
              NPCM8XX_CLK_S_PLL1 0 1 2]
        ++ [devm_clk_hw_register_fixed_factor NPCM8XX_CLK_S_PLL2_DIV2
              NPCM8XX_CLK_S_PLL2 0 1 2]
        ++ [devm_clk_hw_register_fixed_factor NPCM8XX_CLK_S_PRE_CLK
              NPCM8XX_CLK_S_CPU_MUX 0 1 2]
        ++ [devm_clk_hw_register_fixed_factor NPCM8XX_CLK_S_AXI
              NPCM8XX_CLK_S_TH 0 1 2]
        ++ [devm_clk_hw_register_fixed_factor NPCM8XX_CLK_S_ATB
              NPCM8XX_CLK_S_AXI 0 1 2]
        ++ map (div_clk clk_base) npcm8xx_divs
        ++ map (mux_clk clk_base) npcm8xx_muxes ++ []).
Proof. reflexivity. Qed.

Lemma runs_probe_rest :
  runs env (npcm8xx_clk_probe_rest env clk_base)
       (tl (npcm8xx_clk_probe clk_base)) (probe_end env).
Proof.
  rewrite probe_rest_clocks. cbn [tl]. unfold npcm8xx_clk_probe_rest.
  apply runs_bind; [apply runs_register_plls, incl_refl | intros _].
  apply runs_bind; [now apply runs_register_fixed_factor | intros _].
  apply runs_bind; [now apply runs_register_fixed_factor | intros _].
  apply runs_bind; [now apply runs_register_fixed_factor | intros _].
  apply runs_bind; [now apply runs_register_fixed_factor | intros _].
  apply runs_bind; [now apply runs_register_fixed_factor | intros _].
  apply runs_bind; [apply runs_register_divs, incl_refl | intros _].
  eapply runs_bind_post;
    [apply (runs_register_muxes npcm8xx_muxes 0); intros k mx H; exact H |].
  intros out ->. eexists. split; [reflexivity |].
  cbn [Nat.add]. cbv zeta.
  destruct (devm_of_clk_add_hw_provider env =? 0) eqn:E; cbn [negb].
  - apply runs_pret. unfold probe_end. rewrite E.
    apply Z.eqb_eq in E. now rewrite E.
  - apply runs_pexit. unfold probe_end. now rewrite E.
Qed.

End ProbeLoops.

(** ** The probe as a whole *)

Lemma runs_probe_body env clk_base :
  errno_convention env ->
  runs env (npcm8xx_clk_probe_body env clk_base)
       (npcm8xx_clk_probe clk_base) (probe_end env).
Proof.
  intros convention.
  pose proof (runs_probe_rest env clk_base convention) as Hrest.
  rewrite probe_rest_clocks in *. cbn [tl] in Hrest.
  unfold npcm8xx_clk_probe_body.
  destruct (framework_register_attempt env convention refclk_hw)
    as [Hreg Herr]; [discriminate |].
  apply runs_attempt; try assumption; [reflexivity |].
  intros st1. unfold pbind, store_hws.
  match goal with
  | |- context [npcm8xx_clk_probe_rest env clk_base ?s] =>
      destruct (Hrest s) as [out [st' [E [R [U [W F]]]]]]
  end.
  exists out, st'. split; [exact E |]. split; [exact R |].
  split; [exact U |]. split; [| exact F].
  intros i. rewrite W, hws_after_app. apply hws_after_ext.
  intros j. reflexivity.
Qed.

Lemma err_mux_clk_keeps env i :
  forall st,
  hws (err_mux_clk env i st) = hws st
  /\ registered_clks (err_mux_clk env i st) = registered_clks st.
Proof.
  induction i as [| i IH]; intros st; [now split |].
  cbn [err_mux_clk]. cbv zeta.
  destruct (nth_error npcm8xx_muxes i) as [mx |];
    destruct (IH st) as [H1 H2]; [| now split].
  match goal with
  | |- context [err_mux_clk env i ?s] => destruct (IH s) as [H3 H4]
  end.
  split; [exact H3 | exact H4].
Qed.

Lemma probe_cleanup_keeps env ex st :
  hws (snd (probe_cleanup env ex st)) = hws st
  /\ registered_clks (snd (probe_cleanup env ex st)) = registered_clks st.
Proof.
  destruct ex as [err | hw | hw i]; cbn; try (split; reflexivity).
  apply err_mux_clk_keeps.
Qed.

(** The probe, once the register window is mapped: the body run from
    the initial state, then the cleanup. *)
Lemma probe_full_mapped env clk_base :
  errno_convention env ->
  devm_kzalloc_clk_data env = true ->
  of_address_to_resource env = 0 ->
  ioremap env = Some clk_base ->
  exists out st',
    npcm8xx_clk_probe_full env
    = match out with
      | inl err => (err, st')
      | inr ex => probe_cleanup env ex st'
      end
    /\ registered_clks st'
       = registered_prefix env (npcm8xx_clk_probe clk_base)
    /\ unregistered st' = []
    /\ (forall i,
          hws st' i
          = hws_after (flat_map (hws_write env)
                         (registered_prefix env (npcm8xx_clk_probe clk_base)))
                      (fun _ => ERR_PTR (- EPROBE_DEFER)) i)
    /\ match first_failure env (npcm8xx_clk_probe clk_base) with
       | Some (hw, e) => out = inr (probe_exit_for hw (ERR_PTR e))
       | None => probe_end env out
       end.
Proof.
  intros convention Hk Ho Hi.
  destruct (runs_probe_body env clk_base convention probe_state_init)
    as [out [st' [E [R [U [W F]]]]]].
  exists out, st'. unfold npcm8xx_clk_probe_full.
  rewrite Hk, Ho, Hi, E. cbn [negb Z.eqb].
  split; [now destruct out |]. repeat split; assumption.
Qed.

Lemma probe_cleanup_code env hw e st :
  fst (probe_cleanup env (probe_exit_for hw (ERR_PTR e)) st) = e.
Proof. unfold probe_exit_for. destruct (clk_kind_of hw); reflexivity. Qed.

Lemma ENOMEM_errno : - MAX_ERRNO <= - ENOMEM < 0.
Proof. vm_compute. split; [discriminate | reflexivity]. Qed.

Lemma platform_sample_convention failing error provider :
  - MAX_ERRNO <= error < 0 ->
  errno_convention (platform_sample failing error provider).
Proof.
  intros H name. cbn. destruct (String.eqb name failing);
    [right; exact H | left; reflexivity].
Qed.

(** The value returned, once the register window is mapped. *)
Lemma probe_full_return env clk_base :
  errno_convention env ->
  devm_kzalloc_clk_data env = true ->
  of_address_to_resource env = 0 ->
  ioremap env = Some clk_base ->
  fst (npcm8xx_clk_probe_full env)
  = match first_failure env (npcm8xx_clk_probe clk_base) with
    | Some (_, e) => e
    | None => devm_of_clk_add_hw_provider env
    end.
Proof.
  intros convention Hk Ho Hi.
  destruct (probe_full_mapped env clk_base convention Hk Ho Hi)
    as [out [st' [E [_ [_ [_ F]]]]]].
  rewrite E.
  destruct (first_failure env (npcm8xx_clk_probe clk_base)) as [[hw e] |].
  - subst out. apply probe_cleanup_code.
  - unfold probe_end in F. subst out.
    now destruct (Z.eqb_spec (devm_of_clk_add_hw_provider env) 0).
Qed.

(** X1.  Once the register window is mapped, and with registration
    calls that return 0 or a negative errno, the probe registers the
    clocks of its table in order up to the first attempt that fails
    and returns the error of that attempt; when no attempt fails it
    returns what the clock provider returned. *)
Theorem probe_first_failure env clk_base :
  errno_convention env ->
  devm_kzalloc_clk_data env = true ->
  of_address_to_resource env = 0 ->
  ioremap env = Some clk_base ->
  registered_clks (snd (npcm8xx_clk_probe_full env))
  = registered_prefix env (npcm8xx_clk_probe clk_base)
  /\ fst (npcm8xx_clk_probe_full env)
     = match first_failure env (npcm8xx_clk_probe clk_base) with
       | Some (_, e) => e
       | None => devm_of_clk_add_hw_provider env
       end.
Proof.
  intros convention Hk Ho Hi.
  split; [| now apply probe_full_return].
  destruct (probe_full_mapped env clk_base convention Hk Ho Hi)
    as [out [st' [E [R _]]]].
  rewrite E. destruct out as [err | ex]; cbn [snd]; [exact R |].
  now rewrite (proj2 (probe_cleanup_keeps env ex st')).
Qed.

Lemma probe_first_failure_witness :
  registered_clks
    (snd (npcm8xx_clk_probe_full
            (platform_sample NPCM8XX_CLK_S_PLL2 (- ENOMEM) 0)))
  = [refclk_hw; pll_clk 0 (mk_pll NPCM8XX_PLLCON0 NPCM8XX_CLK_S_PLL0
                             NPCM8XX_CLK_S_REFCLK 0 None);
     pll_clk 0 (mk_pll NPCM8XX_PLLCON1 NPCM8XX_CLK_S_PLL1
                  NPCM8XX_CLK_S_REFCLK 0 None)]
  /\ fst (npcm8xx_clk_probe_full
            (platform_sample NPCM8XX_CLK_S_PLL2 (- ENOMEM) 0))
     = - ENOMEM.
Proof.
  exact (probe_first_failure
           (platform_sample NPCM8XX_CLK_S_PLL2 (- ENOMEM) 0) 0
           (platform_sample_convention _ _ _ ENOMEM_errno)
           eq_refl eq_refl eq_refl).
Defined.

(** X2.  With registration calls that return 0 or a negative errno,
    the probe returns 0 exactly when both allocations of its own, the
    resource lookup and the mapping succeed, every attempt to register
    a clock of the table succeeds and the clock provider is added. *)
Theorem probe_returns_zero_iff env :
  errno_convention env ->
  fst (npcm8xx_clk_probe_full env) = 0
  <-> devm_kzalloc_clk_data env = true
      /\ of_address_to_resource env = 0
      /\ (exists clk_base,
            ioremap env = Some clk_base
            /\ forall hw, In hw (npcm8xx_clk_probe clk_base) ->
                          attempt env hw = 0)
      /\ devm_of_clk_add_hw_provider env = 0.
Proof.
  intros convention. split.
  - intros Hret.
    destruct (devm_kzalloc_clk_data env) eqn:Hk;
      [| unfold npcm8xx_clk_probe_full in Hret; rewrite Hk in Hret;
         discriminate Hret].
    destruct (Z.eqb_spec (of_address_to_resource env) 0) as [Ho | Ho];
      [| unfold npcm8xx_clk_probe_full in Hret; rewrite Hk in Hret;
         cbn [negb] in Hret; cbv zeta in Hret;
         destruct (Z.eqb_spec (of_address_to_resource env) 0);
         [contradiction | cbn in Hret; contradiction]].
    destruct (ioremap env) as [clk_base |] eqn:Hi;
      [| unfold npcm8xx_clk_probe_full in Hret;
         rewrite Hk, Ho, Hi in Hret; discriminate Hret].
    pose proof (probe_full_return env clk_base convention Hk Ho Hi)
      as Hfst.
    rewrite Hret in Hfst.
    destruct (first_failure env (npcm8xx_clk_probe clk_base))
      as [[hw e] |] eqn:F.
    + apply first_failure_Some in F. destruct F as [_ [Hne _]].
      congruence.
    + repeat split; try assumption; [| congruence].
      exists clk_base. split; [reflexivity |].
      now apply first_failure_None.
  - intros [Hk [Ho [[clk_base [Hi Hall]] Hp]]].
    pose proof (probe_full_return env clk_base convention Hk Ho Hi)
      as Hfst.
    rewrite Hfst.
    apply first_failure_None in Hall. now rewrite Hall.
Qed.

Lemma probe_returns_zero_iff_witness :
  fst (npcm8xx_clk_probe_full (platform_sample "" 0 0)) = 0
  /\ fst (npcm8xx_clk_probe_full
            (platform_sample NPCM8XX_CLK_S_RCP_MUX (- ENOMEM) 0)) <> 0.
Proof.
  split.
  - apply (proj2 (probe_returns_zero_iff (platform_sample "" 0 0)
                    ltac:(intros name; left; cbn;
                          now destruct (String.eqb name "")))).
    repeat split. exists 0. split; [reflexivity |].
    intros hw _. unfold attempt. cbn.
    destruct (clk_kind_of hw); now destruct (String.eqb (clk_name hw) "").
  - intros H.
    apply (proj1 (probe_returns_zero_iff
                    (platform_sample NPCM8XX_CLK_S_RCP_MUX (- ENOMEM) 0)
                    (platform_sample_convention _ _ _
                       ENOMEM_errno))) in H.
    destruct H as [_ [_ [[clk_base [Hi Hall]] _]]].
    injection Hi as <-.
    specialize (Hall (mux_clk 0 (mk_mux 27 (u8 (GENMASK 1 0)) pll_mux_table
                                   NPCM8XX_CLK_S_RCP_MUX pll_mux_parents
                                   (ARRAY_SIZE pll_mux_parents) 0 None))).
    discriminate Hall.
    unfold npcm8xx_clk_probe; cbn; in_table.
Defined.

(** ** The probe: the array of exported clocks *)

Lemma constants_of_probe clk_base :
  constants_of (npcm8xx_clk_probe clk_base) = export_constants.
Proof. reflexivity. Qed.

Lemma constants_of_app l1 l2 :
  constants_of (l1 ++ l2) = constants_of l1 ++ constants_of l2.
Proof. apply flat_map_app. Qed.

Lemma registered_prefix_split env l :
  exists rest, l = registered_prefix env l ++ rest.
Proof.
  induction l as [| hw l [rest IH]]; [now exists [] |].
  cbn [registered_prefix]. destruct (attempt env hw =? 0).
  - exists rest. cbn [app]. now rewrite <- IH.
  - now exists (hw :: l).
Qed.

Section ProbeArray.

Variable env : platform.
Hypothesis distinct : bindings_distinct env.

Lemma export_binding_nonneg c : In c export_constants -> 0 <= binding env c.
Proof.
  destruct distinct as [_ Hall]. rewrite Forall_forall in Hall. apply Hall.
Qed.

(** The stores of a list of clocks, when their indices are not
    negative. *)
Lemma hws_writes_of clks :
  incl (constants_of clks) export_constants ->
  flat_map (hws_write env) clks
  = flat_map (fun hw => match onecell_of hw with
                        | Some c => [(binding env c, Hw hw)]
                        | None => []
                        end) clks.
Proof.
  induction clks as [| hw clks IH]; intros Hin; [reflexivity |].
  cbn [flat_map]. unfold constants_of in Hin. cbn [flat_map] in Hin.
  rewrite IH by (intros c Hc; apply Hin, in_or_app; now right).
  f_equal. unfold hws_write.
  destruct (onecell_of hw) as [c |]; [| reflexivity].
  assert (0 <= binding env c) as Hc
      by (apply export_binding_nonneg, Hin, in_or_app; left; now left).
  apply Z.leb_le in Hc. rewrite Hc. now rewrite orb_true_r.
Qed.

Lemma hws_writes_keys clks :
  incl (constants_of clks) export_constants ->
  map fst (flat_map (hws_write env) clks)
  = map (binding env) (constants_of clks).
Proof.
  intros Hin. rewrite hws_writes_of by assumption. clear Hin.
  induction clks as [| hw clks IH]; [reflexivity |].
  unfold constants_of in *. cbn [flat_map].
  rewrite !map_app, IH. f_equal. now destruct (onecell_of hw).
Qed.

Lemma hws_writes_in clks hw c :
  incl (constants_of clks) export_constants ->
  In hw clks -> onecell_of hw = Some c ->
  In (binding env c, Hw hw) (flat_map (hws_write env) clks).
Proof.
  intros Hincl Hin Hc. rewrite hws_writes_of by assumption.
  apply in_flat_map. exists hw. split; [exact Hin |].
  rewrite Hc. now left.
Qed.

(** Only clocks that have an export index are stored. *)
Lemma hws_writes_exported clks i hw :
  In (i, Hw hw) (flat_map (hws_write env) clks) -> onecell_of hw <> None.
Proof.
  intros H. apply in_flat_map in H. destruct H as [hw' [_ H]].
  unfold hws_write in H. destruct (onecell_of hw') as [c |] eqn:E;
    [| destruct H].
  destruct (is_fixed_rate hw' || (0 <=? binding env c)); [| destruct H].
  destruct H as [[= _ <-] | []]. congruence.
Qed.

(** The slot of an exported clock that is registered holds this
    clock. *)
Lemma registered_slot clk_base h hw c :
  In hw (registered_prefix env (npcm8xx_clk_probe clk_base)) ->
  onecell_of hw = Some c ->
  hws_after (flat_map (hws_write env)
               (registered_prefix env (npcm8xx_clk_probe clk_base)))
            h (binding env c)
  = Hw hw.
Proof.
  intros Hin Hc.
  destruct (registered_prefix_split env (npcm8xx_clk_probe clk_base))
    as [rest Hsplit].
  set (pre := registered_prefix env (npcm8xx_clk_probe clk_base)) in *.
  assert (incl (constants_of pre) export_constants) as Hincl.
  { rewrite <- (constants_of_probe clk_base), Hsplit, constants_of_app.
    intros x Hx. apply in_or_app. now left. }
  apply hws_after_stored; [| now apply hws_writes_in].
  rewrite hws_writes_keys by assumption.
  destruct distinct as [Hnd _].
  rewrite <- (constants_of_probe clk_base), Hsplit, constants_of_app,
    map_app in Hnd.
  now apply NoDup_app_remove_r in Hnd.
Qed.

End ProbeArray.

Lemma binding_sample_distinct failing error provider :
  bindings_distinct (platform_sample failing error provider).
Proof.
  split; [vm_compute | apply Forall_forall; cbn [platform_sample binding]].
  - repeat (constructor;
            [intros H; repeat (destruct H as [H | H]; [discriminate H |]);
             destruct H |]).
    constructor.
  - intros c Hc. vm_compute in Hc.
    repeat (destruct Hc as [<- | Hc]; [vm_compute; discriminate |]).
    destruct Hc.
Qed.

(** X3.  When every call succeeds and the binding constants used are
    distinct, non-negative indices, the probe leaves the whole table
    registered and nothing unregistered; each clock with an export
    index sits in its slot of [hws], and every slot under no such
    index still holds [ERR_PTR(-EPROBE_DEFER)]. *)
Theorem probe_success_state env clk_base :
  errno_convention env ->
  bindings_distinct env ->
  devm_kzalloc_clk_data env = true ->
  of_address_to_resource env = 0 ->
  ioremap env = Some clk_base ->
  (forall hw, In hw (npcm8xx_clk_probe clk_base) -> attempt env hw = 0) ->
  devm_of_clk_add_hw_provider env = 0 ->
  let st := snd (npcm8xx_clk_probe_full env) in
  registered_clks st = npcm8xx_clk_probe clk_base
  /\ unregistered st = []
  /\ (forall hw c, In hw (npcm8xx_clk_probe clk_base) ->
                   onecell_of hw = Some c ->
                   hws st (binding env c) = Hw hw)
  /\ (forall i, ~ In i (map (binding env) export_constants) ->
                hws st i = ERR_PTR (- EPROBE_DEFER)).
Proof.
  intros convention distinct Hk Ho Hi Hall Hp st.
  destruct (probe_full_mapped env clk_base convention Hk Ho Hi)
    as [out [st' [E [R [U [W F]]]]]].
  apply first_failure_None in Hall.
  rewrite Hall in F. unfold probe_end in F. rewrite Hp in F. cbn in F.
  subst out. subst st. rewrite E. cbn [snd].
  rewrite (registered_prefix_all _ _ Hall) in *.
  split; [exact R |]. split; [exact U |]. split.
  - intros hw c Hin Hc. rewrite W.
    pose proof (registered_slot env distinct clk_base
                  (fun _ => ERR_PTR (- EPROBE_DEFER)) hw c) as Hs.
    rewrite (registered_prefix_all _ _ Hall) in Hs. now apply Hs.
  - intros i Hn. rewrite W, hws_after_other; [reflexivity |].
    rewrite hws_writes_keys, constants_of_probe; [exact Hn | exact distinct |].
    rewrite constants_of_probe. apply incl_refl.
Qed.

Lemma probe_success_state_witness :
  hws (snd (npcm8xx_clk_probe_full (platform_sample "" 0 0)))
      (binding_sample "NPCM8XX_CLK_AHB")
  = Hw (div_clk 0 (mk_div NPCM8XX_CLKDIV1 26 2 NPCM8XX_CLK_S_AHB
                     NPCM8XX_CLK_S_PRE_CLK CLK_DIVIDER_READ_ONLY
                     CLK_IS_CRITICAL (Some "NPCM8XX_CLK_AHB"))).
Proof.
  assert (errno_convention (platform_sample "" 0 0)) as Hconv
    by (intros name; left; cbn; now destruct (String.eqb name "")).
  assert (forall hw, In hw (npcm8xx_clk_probe 0) ->
                     attempt (platform_sample "" 0 0) hw = 0) as Hall
    by (intros hw _; unfold attempt; cbn;
        destruct (clk_kind_of hw);
        now destruct (String.eqb (clk_name hw) "")).
  assert (In (div_clk 0 (mk_div NPCM8XX_CLKDIV1 26 2 NPCM8XX_CLK_S_AHB
                           NPCM8XX_CLK_S_PRE_CLK CLK_DIVIDER_READ_ONLY
                           CLK_IS_CRITICAL (Some "NPCM8XX_CLK_AHB")))
             (npcm8xx_clk_probe 0)) as Hin
    by (unfold npcm8xx_clk_probe; cbn; in_table).
  exact (proj1 (proj2 (proj2 (probe_success_state (platform_sample "" 0 0) 0
                   Hconv (binding_sample_distinct _ _ _)
                   eq_refl eq_refl eq_refl Hall eq_refl)))
           _ "NPCM8XX_CLK_AHB" Hin eq_refl).
Defined.

(** ** The probe: what it never exports or unregisters *)

Lemma not_exported_onecell clk_base hw :
  In hw (npcm8xx_clk_probe clk_base) -> not_exported_kind hw = true ->
  onecell_of hw = None.
Proof.
  intros H Hk.
  repeat (destruct H as [<- | H]; [first [reflexivity | discriminate Hk] |]).
  destruct H.
Qed.

Lemma err_mux_clk_unregistered_from env i :
  forall st p,
  In p (unregistered (err_mux_clk env i st)) ->
  In p (unregistered st) \/ exists idx, p = hws st idx.
Proof.
  induction i as [| i IH]; intros st p H; [now left |].
  cbn [err_mux_clk] in H. cbv zeta in H.
  destruct (nth_error npcm8xx_muxes i) as [mx |]; [| now apply IH].
  apply IH in H. cbn [hws unregistered] in H.
  destruct H as [H | H]; [| now right].
  destruct (0 <=? onecell_value env (mux_onecell_idx mx)); [| now left].
  apply in_app_or in H. destruct H as [H | [<- | []]]; [now left |].
  right. eexists. reflexivity.
Qed.

Lemma probe_cleanup_unregistered_from env ex st p :
  In p (unregistered (snd (probe_cleanup env ex st))) ->
  In p (unregistered st) \/ exists idx, p = hws st idx.
Proof.
  destruct ex as [err | hw | hw i]; cbn [probe_cleanup snd].
  - now left.
  - unfold unregister_refclk, unregister. cbn [unregistered].
    intros H. apply in_app_or in H. destruct H as [H | [<- | []]];
      [now left | right; eexists; reflexivity].
  - unfold unregister_refclk, unregister. cbn [unregistered].
    intros H. apply in_app_or in H. destruct H as [H | [<- | []]].
    + now apply err_mux_clk_unregistered_from in H.
    + right. rewrite (proj1 (err_mux_clk_keeps env i st)).
      eexists. reflexivity.
Qed.

(** X4.  Whatever fails, the probe never stores a PLL, a fixed
    divider or a mux other than [cpu] and [gfx_pixel] into [hws], and
    never unregisters one: the muxes among them, registered with
    [clk_hw_register_mux_table], stay registered when the probe
    fails. *)
Theorem probe_never_exports env clk_base hw :
  errno_convention env ->
  In hw (npcm8xx_clk_probe clk_base) ->
  not_exported_kind hw = true ->
  (forall i, hws (snd (npcm8xx_clk_probe_full env)) i <> Hw hw)
  /\ ~ In (Hw hw) (unregistered (snd (npcm8xx_clk_probe_full env))).
Proof.
  intros convention Hin Hkind.
  pose proof (not_exported_onecell clk_base hw Hin Hkind) as Hnone.
  assert (forall st, hws st = (fun _ => ERR_PTR (- EPROBE_DEFER)) ->
                     unregistered st = [] ->
                     (forall i, hws st i <> Hw hw)
                     /\ ~ In (Hw hw) (unregistered st)) as Hinit.
  { intros st Hh Hu. rewrite Hh, Hu. split; [discriminate | intros []]. }
  destruct (devm_kzalloc_clk_data env) eqn:Hk;
    [| unfold npcm8xx_clk_probe_full; rewrite Hk; now apply Hinit].
  destruct (Z.eqb_spec (of_address_to_resource env) 0) as [Ho | Ho];
    [| unfold npcm8xx_clk_probe_full; rewrite Hk; cbv zeta;
       destruct (Z.eqb_spec (of_address_to_resource env) 0);
       [contradiction | now apply Hinit]].
  destruct (ioremap env) as [base |] eqn:Hi;
    [| unfold npcm8xx_clk_probe_full; rewrite Hk, Ho, Hi; now apply Hinit].
  destruct (probe_full_mapped env base convention Hk Ho Hi)
    as [out [st' [E [_ [U [W _]]]]]].
  assert (forall i, hws st' i <> Hw hw) as Hst'.
  { intros i Hc. rewrite W in Hc.
    destruct (hws_after_origin
                (flat_map (hws_write env)
                   (registered_prefix env (npcm8xx_clk_probe base)))
                (fun _ => ERR_PTR (- EPROBE_DEFER)) i) as [Hw | He].
    - rewrite Hc in Hw. now apply hws_writes_exported in Hw.
    - rewrite Hc in He. discriminate He. }
  rewrite E. destruct out as [err | ex]; cbn [snd].
  - split; [exact Hst' | now rewrite U].
  - split.
    + intros i. rewrite (proj1 (probe_cleanup_keeps env ex st')).
      apply Hst'.
    + intros Hc. apply probe_cleanup_unregistered_from in Hc.
      rewrite U in Hc. destruct Hc as [[] | [idx Hc]].
      now apply (Hst' idx).
Qed.

Lemma probe_never_exports_witness :
  fst (npcm8xx_clk_probe_full (platform_sample "" 0 (- ENOMEM))) = - ENOMEM
  /\ In (mux_clk 0 (mk_mux 6 (u8 (GENMASK 1 0)) pll_mux_table
                      NPCM8XX_CLK_S_SD_MUX pll_mux_parents
                      (ARRAY_SIZE pll_mux_parents) 0 None))
        (registered_clks
           (snd (npcm8xx_clk_probe_full (platform_sample "" 0 (- ENOMEM)))))
  /\ ~ In (Hw (mux_clk 0 (mk_mux 6 (u8 (GENMASK 1 0)) pll_mux_table
                            NPCM8XX_CLK_S_SD_MUX pll_mux_parents
                            (ARRAY_SIZE pll_mux_parents) 0 None)))
          (unregistered
             (snd (npcm8xx_clk_probe_full
                     (platform_sample "" 0 (- ENOMEM))))).
Proof.
  split; [reflexivity |]. split; [cbn; in_table |].
  assert (errno_convention (platform_sample "" 0 (- ENOMEM))) as Hconv
    by (intros name; left; cbn; now destruct (String.eqb name "")).
  assert (In (mux_clk 0 (mk_mux 6 (u8 (GENMASK 1 0)) pll_mux_table
                           NPCM8XX_CLK_S_SD_MUX pll_mux_parents
                           (ARRAY_SIZE pll_mux_parents) 0 None))
             (npcm8xx_clk_probe 0)) as Hin
    by (unfold npcm8xx_clk_probe; cbn; in_table).
  exact (proj2 (probe_never_exports (platform_sample "" 0 (- ENOMEM)) 0 _
                  Hconv Hin eq_refl)).
Defined.

(** ** The probe: its cleanup *)

Lemma firstn_S_nth {A} (l : list A) i :
  firstn (S i) l
  = firstn i l ++ match nth_error l i with Some x => [x] | None => [] end.
Proof.
  revert i. induction l as [| a l IH]; intros i.
  - now destruct i.
  - destruct i as [| i]; [reflexivity |].
    cbn [firstn nth_error app]. cbn [firstn] in IH. now rewrite <- IH.
Qed.

Lemma filter_none {A} (f : A -> bool) l :
  (forall x, In x l -> f x = false) -> filter f l = [].
Proof.
  induction l as [| a l IH]; intros H; [reflexivity |].
  cbn [filter]. rewrite (H a) by now left.
  apply IH. intros x Hx. apply H. now right.
Qed.

(** What the loop at [err_mux_clk] unregisters: the slots of the
    muxes below [i] that have an export index, last mux first. *)
Lemma err_mux_clk_unregistered env i :
  forall st,
  unregistered (err_mux_clk env i st)
  = unregistered st
    ++ map (fun mx => hws st (onecell_value env (mux_onecell_idx mx)))
           (rev (filter (fun mx =>
                           0 <=? onecell_value env (mux_onecell_idx mx))
                        (firstn i npcm8xx_muxes))).
Proof.
  induction i as [| i IH]; intros st.
  - cbn. now rewrite app_nil_r.
  - cbn [err_mux_clk]. cbv zeta. rewrite firstn_S_nth.
    destruct (nth_error npcm8xx_muxes i) as [mx |].
    + rewrite IH. cbn [hws unregistered].
      rewrite filter_app, rev_app_distr, map_app. cbn [filter].
      destruct (0 <=? onecell_value env (mux_onecell_idx mx)).
      * cbn [rev app map]. now rewrite <- app_assoc.
      * cbn [rev app map]. reflexivity.
    + rewrite IH. now rewrite app_nil_r.
Qed.

Lemma probe_split clk_base :
  npcm8xx_clk_probe clk_base
  = non_mux_clocks clk_base ++ map (mux_clk clk_base) npcm8xx_muxes.
Proof. reflexivity. Qed.

Lemma non_mux_clocks_kind clk_base hw :
  In hw (non_mux_clocks clk_base) ->
  exported_mux hw = false
  /\ (is_fixed_rate hw = true -> hw = refclk_hw)
  /\ forall p, probe_exit_for hw p
               = if is_fixed_rate hw then exit_return (PTR_ERR p)
                 else goto_unregister_refclk p.
Proof.
  intros H.
  repeat (destruct H as [<- | H];
          [split; [reflexivity |];
           split; [first [reflexivity | discriminate] | reflexivity] |]).
  destruct H.
Qed.

Lemma mux_clk_row clk_base mx :
  In mx npcm8xx_muxes ->
  onecell_of (mux_clk clk_base mx) = mux_onecell_idx mx
  /\ mux_position (mux_name mx) = mux_position (clk_name (mux_clk clk_base mx))
  /\ exported_mux (mux_clk clk_base mx)
     = match mux_onecell_idx mx with Some _ => true | None => false end.
Proof.
  intros H. apply In_nth_error in H. destruct H as [k Hk].
  destruct (mux_row_onecell clk_base mx k Hk) as [H1 _].
  split; [exact H1 |]. split; [reflexivity |].
  unfold exported_mux. fold (mux_clk clk_base mx) in H1. now rewrite H1.
Qed.

(** The registered part of a list made with [map] is made from the
    first rows. *)
Lemma registered_prefix_map {A} env (f : A -> clk_hw) l :
  registered_prefix env (map f l)
  = map f (firstn (List.length (registered_prefix env (map f l))) l).
Proof.
  destruct (registered_prefix_split env (map f l)) as [rest H].
  set (pre := registered_prefix env (map f l)) in *. clearbody pre.
  rewrite <- firstn_map, H.
  now rewrite firstn_app, Nat.sub_diag, firstn_all, firstn_O, app_nil_r.
Qed.

Section ProbeCleanup.

Variable env : platform.
Variable clk_base : Z.
Hypothesis convention : errno_convention env.
Hypothesis distinct : bindings_distinct env.

Let table := npcm8xx_clk_probe clk_base.
Let registered := registered_prefix env table.
Let array :=
  hws_after (flat_map (hws_write env) registered)
            (fun _ => ERR_PTR (- EPROBE_DEFER)).

(** What the slots of the muxes below [n] hold, once these muxes are
    registered. *)
Lemma mux_slots n :
  (forall mx, In mx (firstn n npcm8xx_muxes) ->
              In (mux_clk clk_base mx) registered) ->
  map (fun mx => array (onecell_value env (mux_onecell_idx mx)))
      (rev (filter (fun mx => 0 <=? onecell_value env (mux_onecell_idx mx))
                   (firstn n npcm8xx_muxes)))
  = map Hw (rev (filter exported_mux
                   (map (mux_clk clk_base) (firstn n npcm8xx_muxes)))).
Proof.
  intros Hreg.
  assert (incl (firstn n npcm8xx_muxes) npcm8xx_muxes) as Hincl.
  { intros x Hx. rewrite <- (firstn_skipn n npcm8xx_muxes).
    apply in_or_app. now left. }
  rewrite !map_rev. f_equal.
  induction (firstn n npcm8xx_muxes) as [| mx l IH]; [reflexivity |].
  cbn [filter map].
  assert (In mx npcm8xx_muxes) as Hmx by (apply Hincl; now left).
  destruct (mux_clk_row clk_base mx Hmx) as [Hone [_ Hexp]].
  assert (In (mux_clk clk_base mx) registered) as Hin
      by (apply Hreg; now left).
  rewrite Hexp.
  assert (map (fun mx => array (onecell_value env (mux_onecell_idx mx)))
              (filter (fun mx => 0 <=? onecell_value env (mux_onecell_idx mx))
                      l)
          = map Hw (filter exported_mux (map (mux_clk clk_base) l))) as IH'.
  { apply IH; [intros x Hx; apply Hreg; now right
              | intros x Hx; apply Hincl; now right]. }
  destruct (mux_onecell_idx mx) as [c |] eqn:Hc; cbn [onecell_value].
  - assert (0 <= binding env c) as Hnn.
    { apply (export_binding_nonneg env distinct).
      rewrite <- (constants_of_probe clk_base).
      apply in_flat_map. exists (mux_clk clk_base mx). split.
      - destruct (registered_prefix_split env table) as [rest Hs].
        fold table. rewrite Hs. apply in_or_app. now left.
      - rewrite Hone. now left. }
    apply Z.leb_le in Hnn. rewrite Hnn. cbn [map]. rewrite IH'. f_equal.
    rewrite Hc. cbn [onecell_value]. unfold array, registered, table.
    now apply registered_slot.
  - exact IH'.
Qed.

End ProbeCleanup.

(** X5.  When the probe fails after it has registered the reference
    clock, and the binding constants used are distinct, non-negative
    indices, the clocks it unregisters are exactly the registered
    muxes that have an export index, last registered first, and then
    the reference clock. *)
Theorem probe_failure_cleanup env clk_base :
  errno_convention env ->
  bindings_distinct env ->
  devm_kzalloc_clk_data env = true ->
  of_address_to_resource env = 0 ->
  ioremap env = Some clk_base ->
  attempt env refclk_hw = 0 ->
  fst (npcm8xx_clk_probe_full env) <> 0 ->
  unregistered (snd (npcm8xx_clk_probe_full env))
  = map Hw (rev (filter exported_mux
                   (registered_clks (snd (npcm8xx_clk_probe_full env)))))
    ++ [Hw refclk_hw].
Proof.
  intros convention distinct Hk Ho Hi Href Hret.
  destruct (probe_full_mapped env clk_base convention Hk Ho Hi)
    as [out [st' [E [R [U [W F]]]]]].
  rewrite E in *. clear E.
  assert (In refclk_hw (registered_prefix env (npcm8xx_clk_probe clk_base)))
    as Hrefin.
  { rewrite probe_rest_clocks. cbn [registered_prefix].
    rewrite Href. now left. }
  assert (hws st' (binding env "NPCM8XX_CLK_REFCLK") = Hw refclk_hw) as Hslot.
  { rewrite W. now apply registered_slot. }
  assert (forall hw, In hw (non_mux_clocks clk_base) ->
                     exported_mux hw = false) as Hnm
      by (intros hw Hin; apply (non_mux_clocks_kind clk_base hw Hin)).
  rewrite probe_split, registered_prefix_app in R.
  rewrite probe_split, first_failure_app in F.
  destruct (first_failure env (non_mux_clocks clk_base))
    as [[hw e] |] eqn:Fnm.
  - (* a clock before the muxes fails *)
    subst out.
    destruct (first_failure_Some _ _ _ _ Fnm) as [He [Hne [rest Hsplit]]].
    assert (In hw (non_mux_clocks clk_base)) as Hin
        by (rewrite Hsplit; apply in_or_app; right; now left).
    destruct (non_mux_clocks_kind clk_base hw Hin) as [_ [Hfix Hexit]].
    rewrite Hexit. destruct (is_fixed_rate hw) eqn:Hf.
    + exfalso. rewrite (Hfix eq_refl) in He. congruence.
    + cbn [probe_cleanup snd unregister_refclk unregister unregistered
           registered_clks hws].
      rewrite U, Hslot, R, filter_none; [reflexivity |].
      intros x Hx. apply Hnm. rewrite Hsplit. apply in_or_app. now left.
  - (* the clocks before the muxes are registered *)
    rewrite (registered_prefix_all _ _ Fnm) in R.
    set (M := map (mux_clk clk_base) npcm8xx_muxes) in *.
    set (n := List.length (registered_prefix env M)).
    assert (registered_prefix env M
            = map (mux_clk clk_base) (firstn n npcm8xx_muxes)) as Hpre
        by apply registered_prefix_map.
    assert (exists p, out = inr (goto_err_mux_clk p n)) as [p Hout].
    { destruct (first_failure env M) as [[hw e] |] eqn:Fm.
      - subst out.
        destruct (first_failure_Some _ _ _ _ Fm) as [_ [_ [rest Hsplit]]].
        assert (nth_error M n = Some hw) as Hnth.
        { rewrite Hsplit. fold n.
          rewrite nth_error_app2 by (unfold n; lia).
          unfold n. now rewrite Nat.sub_diag. }
        unfold M in Hnth. rewrite nth_error_map in Hnth.
        destruct (nth_error npcm8xx_muxes n) as [mx |] eqn:Hmx;
          [| discriminate Hnth].
        injection Hnth as <-.
        destruct (mux_row_onecell clk_base mx n Hmx) as [_ Hpos].
        eexists. unfold probe_exit_for. cbn [clk_kind_of mux_clk
          clk_hw_register_mux_table clk_name]. now rewrite Hpos.
      - unfold probe_end in F. subst out.
        destruct (devm_of_clk_add_hw_provider env =? 0);
          [exfalso; now apply Hret |].
        eexists. f_equal. f_equal. unfold n.
        rewrite (registered_prefix_all _ _ Fm). unfold M.
        now rewrite length_map. }
    subst out.
    cbn [probe_cleanup snd unregister_refclk unregister unregistered
         registered_clks hws].
    rewrite (proj1 (err_mux_clk_keeps env n st')),
      (proj2 (err_mux_clk_keeps env n st')).
    rewrite err_mux_clk_unregistered, U, Hslot, R, Hpre. cbn [app].
    rewrite filter_app, (filter_none _ _ Hnm). cbn [app].
    f_equal.
    rewrite <- (mux_slots env clk_base distinct n).
    + apply map_ext. intros mx. apply W.
    + intros mx Hmx. rewrite probe_split, registered_prefix_app, Fnm.
      rewrite (registered_prefix_all _ _ Fnm).
      apply in_or_app. right. fold M. rewrite Hpre. now apply in_map.
Qed.

Lemma probe_failure_cleanup_witness :
  unregistered
    (snd (npcm8xx_clk_probe_full
            (platform_sample NPCM8XX_CLK_S_RCP_MUX (- ENOMEM) 0)))
  = [Hw (mux_clk 0 pix_mux); Hw (mux_clk 0 cpu_mux); Hw refclk_hw].
Proof.
  refine (eq_trans
            (probe_failure_cleanup
               (platform_sample NPCM8XX_CLK_S_RCP_MUX (- ENOMEM) 0) 0
               (platform_sample_convention _ _ _ ENOMEM_errno)
               (binding_sample_distinct _ _ _)
               eq_refl eq_refl eq_refl eq_refl _) _).
  - vm_compute. discriminate.
  - vm_compute. reflexivity.
Defined.

(** ** The PLL below 2^52 Hz *)

Lemma pll_product_fits parent_rate val :
  0 <= parent_rate < 2 ^ 52 -> 0 <= parent_rate * FBDV val < 2 ^ 64.
Proof.
  intros H. pose proof (FBDV_range val) as Hf.
  change (2 ^ 64) with (2 ^ 52 * 4096). nia.
Qed.

(** The rate for a parent rate that is not 0 and below 2^52. *)
Lemma pll_recalc_rate_small m pll regs parent_rate :
  0 < parent_rate < 2 ^ BITS_PER_LONG m -> parent_rate < 2 ^ 52 ->
  INDV (read32 regs (pllcon pll)) * OTDV1 (read32 regs (pllcon pll))
    * OTDV2 (read32 regs (pllcon pll)) <> 0 ->
  result (npcm8xx_clk_pll_recalc_rate m pll parent_rate) regs
  = Ret (ulong m (parent_rate * FBDV (read32 regs (pllcon pll))
                  / (INDV (read32 regs (pllcon pll))
                     * OTDV1 (read32 regs (pllcon pll))
                     * OTDV2 (read32 regs (pllcon pll))))).
Proof.
  intros Hp H52 Hd. unfold result.
  rewrite pll_recalc_rate_run by lia. cbv zeta. cbn [fst].
  apply Z.eqb_neq in Hd. rewrite Hd.
  rewrite (u64_small parent_rate) by (apply (ulong_lt_u64 m); lia).
  now rewrite u64_small by (apply pll_product_fits; lia).
Qed.

(** X6.  For a parent rate that is not 0 and below 2^52 Hz and a
    control word whose INDV, OTDV1 and OTDV2 fields are at least 1,
    the product never wraps: the PLL rate is the quotient
    [parent_rate * FBDV / (INDV * OTDV1 * OTDV2)] cut to an
    [unsigned long], and on LP64 it is the quotient itself. *)
Theorem pll_recalc_rate_below_2_52 m pll regs parent_rate :
  let val := read32 regs (pllcon pll) in
  let quotient :=
    parent_rate * FBDV val / (INDV val * OTDV1 val * OTDV2 val) in
  0 < parent_rate < 2 ^ BITS_PER_LONG m -> parent_rate < 2 ^ 52 ->
  1 <= INDV val -> 1 <= OTDV1 val -> 1 <= OTDV2 val ->
  result (npcm8xx_clk_pll_recalc_rate m pll parent_rate) regs
  = Ret (quotient mod 2 ^ BITS_PER_LONG m)
  /\ (m = LP64 -> quotient mod 2 ^ BITS_PER_LONG m = quotient).
Proof.
  intros val quotient Hp H52 Hi H1 H2.
  pose proof (pll_divisor_pos val Hi H1 H2) as Hd.
  split.
  - apply pll_recalc_rate_small; try assumption. fold val. lia.
  - intros ->. apply Z.mod_small. subst quotient.
    pose proof (pll_product_fits parent_rate val ltac:(lia)) as Hprod.
    split; [apply Z.div_pos; lia |].
    apply Z.div_lt_upper_bound; [lia |].
    change (BITS_PER_LONG LP64) with 64. nia.
Qed.

Lemma pll_recalc_rate_below_2_52_witness :
  result (npcm8xx_clk_pll_recalc_rate ILP32 pll0_hw (2 ^ 31))
         (regs_const (pllcon_encode 1 4 1 1))
  = Ret ((2 ^ 31 * 4 / (1 * 1 * 1)) mod 2 ^ 32).
Proof.
  refine (proj1 (pll_recalc_rate_below_2_52 ILP32 pll0_hw
                   (regs_const (pllcon_encode 1 4 1 1)) (2 ^ 31)
                   _ _ _ _ _));
    by_evaluation.
Defined.

(** X7.  On LP64, for one control word, the PLL rate does not
    decrease when the parent rate grows, as long as the parent rate
    stays below 2^52 Hz. *)
Theorem pll_recalc_rate_monotone pll regs rate1 rate2 out1 out2 :
  0 <= rate1 <= rate2 -> rate2 < 2 ^ 52 ->
  result (npcm8xx_clk_pll_recalc_rate LP64 pll rate1) regs = Ret out1 ->
  result (npcm8xx_clk_pll_recalc_rate LP64 pll rate2) regs = Ret out2 ->
  out1 <= out2.
Proof.
  intros Hr H52 E1 E2.
  set (val := read32 regs (pllcon pll)).
  pose proof (pll_divisor_range val) as Hd.
  pose proof (FBDV_range val) as Hf.
  assert (rate2 <> 0 ->
          INDV val * OTDV1 val * OTDV2 val <> 0
          /\ out2 = rate2 * FBDV val
                    / (INDV val * OTDV1 val * OTDV2 val)) as H2.
  { intros Hne.
    destruct (Z.eq_dec (INDV val * OTDV1 val * OTDV2 val) 0) as [Z0 | Hd0].
    - exfalso. unfold result in E2.
      rewrite pll_recalc_rate_run in E2 by assumption.
      cbv zeta in E2. fold val in E2. rewrite Z0 in E2. discriminate E2.
    - split; [exact Hd0 |].
      rewrite pll_recalc_rate_small in E2;
        [| change (BITS_PER_LONG LP64) with 64; lia | lia | exact Hd0].
      injection E2 as <-. fold val.
      apply ulong_small. change (BITS_PER_LONG LP64) with 64.
      pose proof (pll_product_fits rate2 val ltac:(lia)) as Hprod.
      split; [apply Z.div_pos; lia |].
      apply Z.div_lt_upper_bound; [lia | nia]. }
  destruct (Z.eq_dec rate1 0) as [-> | Hne1].
  - injection E1 as <-.
    destruct (Z.eq_dec rate2 0) as [-> | Hne2]; [injection E2 as <-; lia |].
    destruct (H2 Hne2) as [Hd0 ->]. apply Z.div_pos; nia.
  - destruct (H2 ltac:(lia)) as [Hd0 ->].
    rewrite pll_recalc_rate_small in E1;
      [| change (BITS_PER_LONG LP64) with 64; lia | lia | exact Hd0].
    injection E1 as <-. fold val.
    rewrite ulong_small.
    + apply Z.div_le_mono; [lia | nia].
    + change (BITS_PER_LONG LP64) with 64.
      pose proof (pll_product_fits rate1 val ltac:(lia)) as Hprod.
      split; [apply Z.div_pos; lia |].
      apply Z.div_lt_upper_bound; [lia | nia].
Qed.

Lemma pll_recalc_rate_monotone_witness : 750000000 <= 900000000.
Proof.
  refine (pll_recalc_rate_monotone pll0_hw
            (regs_const (pllcon_encode 1 60 2 1)) 25000000 30000000
            750000000 900000000 _ _ _ _);
    by_evaluation.
Defined.

(** ** The layout of the tables *)

Lemma distinct_names_NoDup names :
  distinct_names names = true -> NoDup names.
Proof.
  induction names as [| name rest IH]; intros H; [constructor |].
  cbn [distinct_names] in H. apply andb_prop in H. destruct H as [Hn Hr].
  constructor; [| now apply IH].
  intros Hin. apply negb_true_iff in Hn.
  assert (existsb (String.eqb name) rest = true) as Hex
      by (apply existsb_exists; exists name; split;
          [exact Hin | apply String.eqb_refl]).
  congruence.
Qed.

Lemma land_lxor_distr_l a b c :
  Z.land (Z.lxor a b) c = Z.lxor (Z.land a c) (Z.land b c).
Proof.
  apply Z.bits_inj'. intros n Hn.
  rewrite !Z.lxor_spec, !Z.land_spec, Z.lxor_spec.
  now destruct (Z.testbit a n), (Z.testbit b n), (Z.testbit c n).
Qed.

(** Bits changed outside a field leave the field as it was. *)
Lemma extract_mask_frame word delta shift mask :
  0 <= shift -> Z.land delta (Z.shiftl mask shift) = 0 ->
  extract_mask (Z.lxor word delta) shift mask = extract_mask word shift mask.
Proof.
  intros Hs Hd. unfold extract_mask.
  rewrite Z.shiftr_lxor, land_lxor_distr_l.
  assert (Z.land (Z.shiftr delta shift) mask = 0) as H0.
  { assert (Z.shiftr (Z.shiftl mask shift) shift = mask) as Hm
        by (rewrite Z.shiftr_shiftl_l, Z.sub_diag by lia;
            apply Z.shiftl_0_r).
    replace (Z.land (Z.shiftr delta shift) mask)
      with (Z.shiftr (Z.land delta (Z.shiftl mask shift)) shift)
      by (now rewrite Z.shiftr_land, Hm).
    rewrite Hd. apply Z.shiftr_0_l. }
  rewrite H0. apply Z.lxor_0_r.
Qed.

(** X8.  The selector fields of two different muxes share no bit of
    CLKSEL and lie inside its 32 bits: changing bits inside the field
    of one mux leaves the raw selector of every other mux as it
    was. *)
Theorem mux_fields_disjoint mx1 mx2 word delta :
  In mx1 npcm8xx_muxes -> In mx2 npcm8xx_muxes ->
  mux_name mx1 <> mux_name mx2 ->
  Z.land delta (mux_field_mask mx1) = delta ->
  Z.land (mux_field_mask mx1) (mux_field_mask mx2) = 0
  /\ 0 <= mux_field_mask mx2 < 2 ^ 32
  /\ extract_mask (Z.lxor word delta) (mux_shift mx2) (mux_mask mx2)
     = extract_mask word (mux_shift mx2) (mux_mask mx2).
Proof.
  intros H1 H2 Hne Hdelta.
  assert (Z.land (mux_field_mask mx1) (mux_field_mask mx2) = 0
          /\ 0 <= mux_field_mask mx2 < 2 ^ 32 /\ 0 <= mux_shift mx2)
    as [Hdis [Hrange Hshift]].
  { clear Hdelta.
    repeat (destruct H1 as [<- | H1];
            [repeat (destruct H2 as [<- | H2];
                     [first [exfalso; apply Hne; reflexivity
                            | vm_compute; repeat split; discriminate] |]);
             destruct H2 |]).
    destruct H1. }
  split; [exact Hdis |]. split; [exact Hrange |].
  apply extract_mask_frame; [exact Hshift |].
  fold (mux_field_mask mx2).
  now rewrite <- Hdelta, <- Z.land_assoc, Hdis, Z.land_0_r.
Qed.

Lemma mux_fields_disjoint_witness :
  extract_mask (Z.lxor 0 (Z.shiftl 3 4)) (mux_shift cpu_mux) (mux_mask cpu_mux)
  = extract_mask 0 (mux_shift cpu_mux) (mux_mask cpu_mux).
Proof.
  refine (proj2 (proj2 (mux_fields_disjoint pix_mux cpu_mux 0 (Z.shiftl 3 4)
                          _ _ _ _))).
  - unfold npcm8xx_muxes; in_table.
  - unfold npcm8xx_muxes; in_table.
  - discriminate.
  - reflexivity.
Defined.



(** X10.  Every entry of every mux table is a value the masked
    selector can take, except the entry 7 of the cpu mux, which does
    not fit its 2-bit mask: the last candidate parent of the cpu mux,
    [pll2], can never be selected. *)
Theorem mux_table_entries_reachable mx v :
  In mx npcm8xx_muxes -> In v (mux_table mx) ->
  (exists x, Z.land x (mux_mask mx) = v)
  <-> ~ (mux_name mx = NPCM8XX_CLK_S_CPU_MUX /\ v = 7).
Proof.
  intros Hmx Hv.
  assert (forall x, Z.land x 3 <> 7) as Hcpu.
  { intros x. change 3 with (Z.ones 2). rewrite Z.land_ones by lia.
    pose proof (Z.mod_pos_bound x (2 ^ 2) ltac:(lia)). lia. }
  repeat (destruct Hmx as [<- | Hmx];
          [repeat (destruct Hv as [<- | Hv];
                   [first
                      [ split;
                        [intros _ [Hn Hv7]; first [discriminate Hn
                                                  | discriminate Hv7]
                        | intros _;
                          match goal with
                          | |- exists x, Z.land x _ = ?w => exists w
                          end; reflexivity]
                      | split;
                        [intros [x Hx] _; exact (Hcpu x Hx)
                        | intros Hn; exfalso; apply Hn; now split] ] |]);
           destruct Hv |]).
  destruct Hmx.
Qed.

Lemma mux_table_entries_reachable_witness :
  ~ exists x, Z.land x (mux_mask cpu_mux) = 7.
Proof.
  intros H.
  refine (proj1 (mux_table_entries_reachable cpu_mux 7 _ _) H _).
  - unfold npcm8xx_muxes; in_table.
  - cbn; in_table.
  - split; reflexivity.
Defined.

(** The first entry that holds a value is where the value is, in a
    table without repetition. *)
Lemma mux_index_NoDup table :
  NoDup table ->
  forall i v, nth_error table i = Some v -> mux_index v table = Some i.
Proof.
  induction table as [| a rest IH]; intros Hnd i v Hi;
    [destruct i; discriminate Hi |].
  inversion Hnd as [| ? ? Hnotin Hnd']; subst.
  cbn [mux_index]. destruct i as [| i]; cbn [nth_error] in Hi.
  - injection Hi as ->. now rewrite Z.eqb_refl.
  - destruct (Z.eqb_spec a v) as [-> | _].
    + exfalso. apply Hnotin. eapply nth_error_In, Hi.
    + now rewrite (IH Hnd' i v Hi).
Qed.

(** X11.  No value appears twice in a mux table and each table is as
    long as the parent list registered with it, so every candidate
    parent but the unreachable one has exactly one selector value:
    looking up the entry at an index gives back this index. *)
Theorem mux_table_lookup mx i v :
  In mx npcm8xx_muxes ->
  nth_error (mux_table mx) i = Some v ->
  mux_index v (mux_table mx) = Some i
  /\ NoDup (mux_table mx)
  /\ List.length (mux_table mx) = List.length (mux_parent_names mx)
  /\ mux_num_parents mx = Z.of_nat (List.length (mux_parent_names mx))
  /\ exists parent, nth_error (mux_parent_names mx) i = Some parent.
Proof.
  intros Hmx Hi.
  assert (NoDup (mux_table mx)
          /\ List.length (mux_table mx) = List.length (mux_parent_names mx)
          /\ mux_num_parents mx
             = Z.of_nat (List.length (mux_parent_names mx)))
    as [Hnd [Hlen Hnum]].
  { clear Hi.
    repeat (destruct Hmx as [<- | Hmx];
            [split; [| split; reflexivity];
             repeat (constructor;
                     [intros H;
                      repeat (destruct H as [H | H]; [discriminate H |]);
                      destruct H |]);
             constructor |]).
    destruct Hmx. }
  split; [now apply mux_index_NoDup |].
  split; [exact Hnd |]. split; [exact Hlen |]. split; [exact Hnum |].
  destruct (nth_error (mux_parent_names mx) i) as [p |] eqn:E;
    [now exists p |].
  apply nth_error_None in E.
  assert (i < List.length (mux_table mx))%nat
    by (apply nth_error_Some; congruence).
  lia.
Qed.

Lemma mux_table_lookup_witness :
  mux_index 3 (mux_table (mk_mux 12 (u8 (GENMASK 1 0)) mccksel_mux_table
                            NPCM8XX_CLK_S_MC_MUX mccksel_mux_parents
                            (ARRAY_SIZE mccksel_mux_parents) 0 None))
  = Some 2%nat.
Proof.
  refine (proj1 (mux_table_lookup _ 2 3 _ _)).
  - unfold npcm8xx_muxes; in_table.
  - reflexivity.
Defined.

(** X12.  The 47 clocks the probe registers have pairwise distinct
    names, so a lookup by name finds the clock registered under
    it. *)
Theorem probe_names_distinct clk_base :
  NoDup (map clk_name (npcm8xx_clk_probe clk_base))
  /\ List.length (npcm8xx_clk_probe clk_base) = 47%nat
  /\ forall hw, In hw (npcm8xx_clk_probe clk_base) ->
                clk_lookup (npcm8xx_clk_probe clk_base) (clk_name hw)
                = Some hw.
Proof.
  split; [apply distinct_names_NoDup; vm_compute; reflexivity |].
  split; [reflexivity |]. apply probe_lookup.
Qed.

(** X14.  The probe stores under 27 binding constants, no two of
    them the same: no slot of [hws] is given to two clocks. *)
Theorem export_constants_distinct :
  NoDup export_constants /\ List.length export_constants = 27%nat.
Proof.
  split; [apply distinct_names_NoDup; vm_compute; reflexivity |].
  reflexivity.
Qed.

(** ** The parent graph *)

Lemma ancestor_rank clk_base child a :
  ancestor (npcm8xx_clk_probe clk_base) child a ->
  (rank (npcm8xx_clk_probe clk_base) a
   < rank (npcm8xx_clk_probe clk_base) child)%nat.
Proof.
  induction 1 as [child hw parent Hl Hp | child middle a _ IH1 _ IH2].
  - apply clk_lookup_Some in Hl. destruct Hl as [Hin <-].
    now apply parent_rank; [apply probe_ranked | |].
  - lia.
Qed.

(** X13.  The parent references of the registered clocks form no
    cycle: no clock is its own ancestor, and no chain of parent
    references from a clock is longer than 6. *)
Theorem probe_parents_acyclic clk_base name :
  ~ ancestor (npcm8xx_clk_probe clk_base) name name
  /\ (rank (npcm8xx_clk_probe clk_base) name <= 6)%nat
  /\ forall a, ancestor (npcm8xx_clk_probe clk_base) name a ->
               (rank (npcm8xx_clk_probe clk_base) a
                < rank (npcm8xx_clk_probe clk_base) name)%nat.
Proof.
  split; [intros H; apply ancestor_rank in H; lia |].
  split; [| intros a; apply ancestor_rank].
  unfold rank.
  destruct (clk_lookup (npcm8xx_clk_probe clk_base) name) as [hw |] eqn:E.
  - apply clk_lookup_Some in E. destruct E as [Hin <-].
    repeat (destruct Hin as [<- | Hin]; [vm_compute; lia |]).
    destruct Hin.
  - change (List.length (npcm8xx_clk_probe clk_base)) with 47%nat.
    cbn [depth]. rewrite E. lia.
Qed.

Lemma probe_parents_acyclic_witness :
  (rank (npcm8xx_clk_probe 0) NPCM8XX_CLK_S_REFCLK
   < rank (npcm8xx_clk_probe 0) NPCM8XX_CLK_S_PLL0)%nat.
Proof.
  apply (proj2 (proj2 (probe_parents_acyclic 0 NPCM8XX_CLK_S_PLL0))).
  eapply ancestor_parent; [reflexivity | left; reflexivity].
Defined.
